(** * SENN on MNIST: the noise-stability experiment of [main_mnist_clean.py]

    A shallow embedding of [src/SENN/scripts/main_mnist_clean.py].

    - Python integers are [Z], Python floats and numpy's float64 are Rocq's
      primitive binary64 floats, strings are [string].
    - A raised exception is a value: computations return a [result].
    - The script reads and advances torch's global random generator and
      writes to the terminal and to plot windows; both are carried in an
      explicit [world] through a state-and-exception monad.
    - torch, numpy, the SENN model library and the explainer wrapper are not
      part of the script.  They are interfaces here (type classes), so every
      statement holds for any implementation of them. *)

From Stdlib Require Import ZArith Floats List Ascii Lia.
From stdpp Require Import base tactics option list strings pretty gmap.

Set Warnings "-inexact-float".
Local Open Scope Z_scope.

(* ===================================================================== *)
(** ** Python values that fail: exceptions and results *)
(* ===================================================================== *)

Inductive exn : Type :=
| IndexError
| KeyError
| NameError (name : string)
| UnboundLocalError (name : string)
| ValueError (msg : string)
| OverflowError
| FileNotFoundError (path : string)
| LibraryError (what : string).

Inductive result (A : Type) : Type :=
| Ok (a : A)
| Raise (e : exn).
Arguments Ok {A} a.
Arguments Raise {A} e.

Definition result_bind {A B} (r : result A) (k : A → result B) : result B :=
  match r with
  | Ok a => k a
  | Raise e => Raise e
  end.

#[export] Instance result_ret : MRet result := λ A a, Ok a.
#[export] Instance result_mbind : MBind result := λ A B k r, result_bind r k.

(** [mapM] over a list, left to right: a Python list comprehension whose
    element expression can raise. *)
Fixpoint result_mapM {A B} (f : A → result B) (l : list A) : result (list B) :=
  match l with
  | [] => Ok []
  | a :: l' => b ← f a; bs ← result_mapM f l'; Ok (b :: bs)
  end.

(* ===================================================================== *)
(** ** Python sequences: [range], indexing, slicing *)
(* ===================================================================== *)

(** [range(n)] *)
Definition range (n : Z) : list Z := map Z.of_nat (seq 0 (Z.to_nat n)).

(** [len(l)] *)
Definition len {A} (l : list A) : Z := Z.of_nat (length l).

(** [l[i]]: a negative index counts from the end; outside the list it is an
    [IndexError]. *)
Definition getitem {A} (l : list A) (i : Z) : result A :=
  let j := if i <? 0 then i + len l else i in
  if j <? 0 then Raise IndexError
  else match l !! Z.to_nat j with
       | Some a => Ok a
       | None => Raise IndexError
       end.

(** The position a slice bound [k] denotes in a list of length [n]. *)
Definition slice_bound (n k : Z) : nat :=
  Z.to_nat (if k <? 0 then Z.max (k + n) 0 else Z.min k n).

(** [l[k:]] and [l[:k]]: each builds a new list object. *)
Definition slice_from {A} (l : list A) (k : Z) : list A :=
  drop (slice_bound (len l) k) l.
Definition slice_to {A} (l : list A) (k : Z) : list A :=
  take (slice_bound (len l) k) l.

(* ===================================================================== *)
(** ** Floats: conversions, [np.floor], [np.arange] *)
(* ===================================================================== *)

(** [float(n)] for a Python int within the 63-bit range. *)
Definition float_of_Z (n : Z) : float :=
  if n <? 0 then PrimFloat.opp (PrimFloat.of_uint63 (Uint63.of_Z (- n)))
  else PrimFloat.of_uint63 (Uint63.of_Z n).

(** [int(np.floor(x))]: NaN and the infinities do not convert. *)
Definition int_floor (x : float) : result Z :=
  match Prim2SF x with
  | S754_zero _ => Ok 0
  | S754_infinity _ => Raise OverflowError
  | S754_nan => Raise (ValueError "cannot convert float NaN to integer")
  | S754_finite s m e => Ok (Z.shiftl (if s then Z.neg m else Z.pos m) e)
  end.

(** [int(np.ceil(x))] *)
Definition int_ceil (x : float) : result Z :=
  n ← int_floor (PrimFloat.opp x); Ok (- n).

(** [np.arange(start, stop, step)] on floats: [ceil((stop - start) / step)]
    values; the first two are [start] and [start + step], the others
    [start + i * delta] with [delta] the difference of the first two. *)
Definition np_arange (start stop step : float) : result (list float) :=
  n ← int_ceil ((stop - start) / step)%float;
  let next := (start + step)%float in
  let delta := (next - start)%float in
  Ok (map (λ i, if i =? 0 then start
                else if i =? 1 then next
                else (start + float_of_Z i * delta)%float)
          (range n)).

(** The scales 0.00, 0.02, ..., 0.20 as binary64 numbers. *)
Definition sweep_scales : list float :=
  [0; 0.02; 0.04; 0.06; 0.08; 0.1; 0.12; 0.14; 0.16; 0.18; 0.2]%float.

(* ===================================================================== *)
(** ** Python dictionaries keyed by floats *)
(* ===================================================================== *)

(** Insertion-ordered; two keys are the same key when they compare equal
    as floats ([==]). *)
Definition dict (V : Type) : Type := list (float * V).

Fixpoint dict_set {V} (d : dict V) (k : float) (v : V) : dict V :=
  match d with
  | [] => [(k, v)]
  | (k', v') :: d' =>
      if (k' =? k)%float then (k', v) :: d' else (k', v') :: dict_set d' k v
  end.

Fixpoint dict_get {V} (d : dict V) (k : float) : result V :=
  match d with
  | [] => Raise KeyError
  | (k', v') :: d' => if (k' =? k)%float then Ok v' else dict_get d' k
  end.

Definition dict_keys {V} (d : dict V) : list float := map fst d.

(** The keys are pairwise different floats, and none is NaN: no key
    compares equal to a later one, and each compares equal to itself. *)
Fixpoint distinct_keys (ks : list float) : bool :=
  match ks with
  | [] => true
  | k :: ks' =>
      (k =? k)%float && forallb (λ k', negb (k =? k')%float) ks'
      && distinct_keys ks'
  end.

(** Strictly increasing, as floats. *)
Fixpoint increasing (ks : list float) : bool :=
  match ks with
  | [] => true
  | k :: ks' =>
      match ks' with
      | [] => (k =? k)%float
      | k' :: _ => (k <? k')%float && increasing ks'
      end
  end.

(* ===================================================================== *)
(** ** State and exceptions *)
(* ===================================================================== *)

(** A computation over a world [W]: it returns or raises, and leaves a
    world behind in both cases. *)
Definition M (W A : Type) : Type := W → result A * W.

#[export] Instance M_ret {W} : MRet (M W) := λ A a w, (Ok a, w).
#[export] Instance M_bind {W} : MBind (M W) := λ A B k m w,
  match m w with
  | (Ok a, w') => k a w'
  | (Raise e, w') => (Raise e, w')
  end.

(** A pure step that can raise. *)
Definition lift {W A} (r : result A) : M W A := λ w, (r, w).

(** A [for] loop that carries the variables it updates in [s]. *)
Fixpoint foldM {W S A} (body : S → A → M W S) (l : list A) (s : S) : M W S :=
  match l with
  | [] => mret s
  | a :: l' => s' ← body s a; foldM body l' s'
  end.

(* ===================================================================== *)
(** ** The libraries the script calls *)
(* ===================================================================== *)

(** torch: tensors and the global random generator. *)
Class TorchLib : Type := {
  Tensor : Type;
  Size : Type;
  Rng : Type;
  (** [t.view(1,1,28,28)] *)
  view_1_1_28_28 : Tensor → result Tensor;
  (** [t.size()] *)
  tensor_size : Tensor → Size;
  (** [torch.randn(size)]: draws from the global generator and advances it *)
  torch_randn : Size → Rng → Tensor * Rng;
  (** [scale * t] *)
  scale_mul : float → Tensor → Tensor;
}.

(** numpy: arrays, their items, and the scalars of reductions. *)
Class NumPyLib : Type := {
  Array : Type;
  Item : Type;
  Scalar : Type;
  (** [np.multiply(a, b)]: raises when the shapes do not broadcast *)
  np_multiply : Array → Array → result Array;
  (** [a - b] *)
  np_subtract : Array → Array → result Array;
  (** [np.linalg.norm(a)] *)
  np_linalg_norm : Array → Scalar;
  (** iterating over an array, as [itertools.chain.from_iterable] does *)
  array_iter : Array → list Item;
  (** [np.mean(l)], [np.std(l)] of a list of scalars *)
  np_mean : list Scalar → Scalar;
  np_std : list Scalar → Scalar;
  (** [a + b], [a - b] on scalars *)
  scalar_add : Scalar → Scalar → Scalar;
  scalar_sub : Scalar → Scalar → Scalar;
}.

(** The namespace [parse_args()] returns, with the attributes [main] reads
    or sets. *)
Record Args : Type := {
  batch_size : Z;
  num_workers : Z;
  h_type : string;
  nobias : bool;
  nconcepts : Z;
  concept_dim : Z;
  positive_theta : bool;
  load_model : bool;
  theta_reg_type : option string;
  train : bool;
  epochs : Z;
  nclasses : Z;
  theta_dim : Z;
}.

Definition set_nclasses (a : Args) (v : Z) : Args :=
  {| batch_size := batch_size a; num_workers := num_workers a;
     h_type := h_type a; nobias := nobias a; nconcepts := nconcepts a;
     concept_dim := concept_dim a; positive_theta := positive_theta a;
     load_model := load_model a; theta_reg_type := theta_reg_type a;
     train := train a; epochs := epochs a;
     nclasses := v; theta_dim := theta_dim a |}.

Definition set_theta_dim (a : Args) (v : Z) : Args :=
  {| batch_size := batch_size a; num_workers := num_workers a;
     h_type := h_type a; nobias := nobias a; nconcepts := nconcepts a;
     concept_dim := concept_dim a; positive_theta := positive_theta a;
     load_model := load_model a; theta_reg_type := theta_reg_type a;
     train := train a; epochs := epochs a;
     nclasses := nclasses a; theta_dim := v |}.

Definition with_theta_reg_type (a : Args) (v : option string) : Args :=
  {| batch_size := batch_size a; num_workers := num_workers a;
     h_type := h_type a; nobias := nobias a; nconcepts := nconcepts a;
     concept_dim := concept_dim a; positive_theta := positive_theta a;
     load_model := load_model a; theta_reg_type := v;
     train := train a; epochs := epochs a;
     nclasses := nclasses a; theta_dim := theta_dim a |}.

Definition set_nconcepts (a : Args) (v : Z) : Args :=
  {| batch_size := batch_size a; num_workers := num_workers a;
     h_type := h_type a; nobias := nobias a; nconcepts := v;
     concept_dim := concept_dim a; positive_theta := positive_theta a;
     load_model := load_model a; theta_reg_type := theta_reg_type a;
     train := train a; epochs := epochs a;
     nclasses := nclasses a; theta_dim := theta_dim a |}.

(** The architecture pieces [main] builds, as the constructor calls. *)
Inductive conceptizer : Type :=
| input_conceptizer
| image_cnn_conceptizer (din nconcepts cdim : Z)
| image_fcc_conceptizer (din nconcepts cdim : Z).

Inductive parametrizer : Type :=
| image_parametrizer (din nconcepts dout : Z) (only_positive : bool).

Inductive aggregator : Type :=
| additive_scalar_aggregator (cdim nclasses : Z).

(** [SubsetRandomSampler(indices)] *)
Inductive Sampler : Type :=
| SubsetRandomSampler (indices : list Z).

(** [DataLoader(dataset, sampler=..., batch_size=..., num_workers=...,
    shuffle=...)]; a dataset is the sequence of its (image, label) pairs,
    already transformed. *)
Record DataLoader (T : Type) : Type := {
  dataset : list (T * Z);
  sampler : option Sampler;
  loader_batch_size : Z;
  loader_num_workers : Z;
  loader_shuffle : option bool;
}.
Arguments dataset {T} _.
Arguments sampler {T} _.
Arguments loader_batch_size {T} _.
Arguments loader_num_workers {T} _.
Arguments loader_shuffle {T} _.

(** The trainer classes of [SENN.trainers] the dispatch names. *)
Inductive trainer (Mo : Type) : Type :=
| VanillaClassTrainer (model : Mo) (args : Args)
| GradPenaltyTrainer (model : Mo) (args : Args) (typ : Z)
| CLPenaltyTrainer (model : Mo) (args : Args).
Arguments VanillaClassTrainer {Mo} model args.
Arguments GradPenaltyTrainer {Mo} model args typ.
Arguments CLPenaltyTrainer {Mo} model args.

(** [gsenn_wrapper(model, mode=..., ...)]: the explainer object. *)
Record explainer (Mo T : Type) : Type := gsenn_wrapper {
  net : Mo;
  mode : string;
  input_type : string;
  multiclass : bool;
  feature_names : option (list string);
  class_names : list string;
  train_data : DataLoader T;
  skip_bias : bool;
  verbose : bool;
}.
Arguments gsenn_wrapper {Mo T} net mode input_type multiclass feature_names
  class_names train_data skip_bias verbose.
Arguments net {Mo T} _.

(** SENN and robust_interpret: models, training, explanations.  Building a
    model initialises its weights from the global generator, and training
    draws from it; evaluating a model in inference mode does not (the model
    is read-only during evaluation). *)
Class SennLib `{TorchLib} `{NumPyLib} : Type := {
  Model : Type;
  (** [GSENN(conceptizer, parametrizer, aggregator)] on freshly built parts *)
  GSENN : conceptizer → parametrizer → aggregator → Rng → Model * Rng;
  (** [trainer.train(train_loader, valid_loader, epochs=, save_path=)]: the
      state of the trainer's model object afterwards *)
  trainer_train : trainer Model → DataLoader Tensor → DataLoader Tensor →
                  Z → string → Rng → result Model * Rng;
  (** [model.eval()] *)
  model_eval : Model → Model;
  (** [net.forward(x, h_options = k)] *)
  net_forward : Model → Tensor → Z → result Tensor;
  (** [t.data.numpy().squeeze()] *)
  data_numpy_squeeze : Tensor → Array;
  (** [expl(x)]: one explanation row per input of the batch *)
  expl_call : explainer Model Tensor → Tensor → result (list Array);
}.

(** What [print] is given. *)
Inductive pyobj : Type :=
| PyStr (s : string)
| PyInt (n : Z).

(** ** The names bound in the script's module

    The [import] statements and the [def]s, in source order.  A name that
    is neither here nor a builtin raises [NameError] when it is evaluated. *)
Definition module_globals : gset string :=
  list_to_set
    [ "warnings"; "sys"; "os"; "np"; "pdb"; "pickle"; "argparse"; "operator";
      "matplotlib"; "plt"; "torch"; "TensorDataset"; "Variable";
      "torchvision"; "transforms"; "MNIST"; "SubsetRandomSampler";
      "dataloader"; "get_senn_parser"; "GSENN"; "image_fcc_conceptizer";
      "image_cnn_conceptizer"; "input_conceptizer"; "image_parametrizer";
      "linear_scalar_aggregator"; "additive_scalar_aggregator";
      "HLearningClassTrainer"; "VanillaClassTrainer"; "GradPenaltyTrainer";
      "plot_theta_stability"; "generate_dir_names"; "noise_stability_plots";
      "concept_grid"; "estimate_dataset_lipschitz"; "gsenn_wrapper";
      "lipschitz_boxplot"; "lipschitz_argmax_plot";
      "lipschitz_feature_argmax_plot"; "sample"; "tqdm"; "defaultdict";
      "itertools"; "load_mnist_data"; "parse_args"; "eval_stability_2";
      "plot_distribution_h"; "main" ].

Definition global_name (n : string) : result unit :=
  if bool_decide (n ∈ module_globals) then Ok () else Raise (NameError n).

(** A local variable that is read: unbound when no branch assigned it. *)
Definition local_name {A} (n : string) (v : option A) : result A :=
  match v with
  | Some a => Ok a
  | None => Raise (UnboundLocalError n)
  end.

(** [os.path.join(a, b)] for a relative [b]. *)
Definition path_join (a b : string) : string :=
  if String.eqb a "" then b
  else if String.eqb (String.substring (String.length a - 1)%nat 1 a) "/" then a +:+ b
  else a +:+ "/" +:+ b.

(** [s.upper()], for the ASCII letters that argparse's attribute names are
    made of. *)
Definition ascii_upper (c : ascii) : ascii :=
  let n := N_of_ascii c in
  if ((97 <=? n) && (n <=? 122))%N then ascii_of_N (n - 32) else c.

Fixpoint upper (s : string) : string :=
  match s with
  | EmptyString => EmptyString
  | String c s' => String (ascii_upper c) (upper s')
  end.

(** [sorted(d.items())] for the items of a dictionary with string keys: no
    two items have the same key, so the order of the keys decides. *)
Fixpoint sorted_insert {V} (x : string * V) (l : list (string * V))
  : list (string * V) :=
  match l with
  | [] => [x]
  | y :: l' => if String.leb x.1 y.1 then x :: l else y :: sorted_insert x l'
  end.

Definition sorted {V} (items : list (string * V)) : list (string * V) :=
  foldr sorted_insert [] items.

(** The machine the script runs on: its command line, the directory naming
    of [SENN.utils], the MNIST files, the checkpoints [torch.load] can read
    (path to unpickled dictionary) and numpy's seeded shuffle.
    [trainer.train] writes checkpoints, but no run that trains reads one, so
    the files are read-only here.

    The command line is what argparse makes of it on line 119, with the
    parser of lines 98-115 (SENN's own options and five local ones):
    [parser_parse_args] is the namespace, with the attributes [main] reads,
    and [args_dict] is its [__dict__], every attribute with the text
    [format] gives for its value. *)
Class Host `{SennLib} : Type := {
  parser_parse_args : Args;
  args_dict : gmap string string;
  generate_dir_names : string → Args → string * string * string;
  mnist_train : list (Tensor * Z);
  mnist_test : list (Tensor * Z);
  files : gmap string (gmap string Model);
  (** the order of [l] after [np.random.seed(seed); np.random.shuffle(l)] *)
  np_random_shuffle : Z → list Z → list Z;
}.

(* ===================================================================== *)
(** ** The script *)
(* ===================================================================== *)

Section Script.
Context {TL : TorchLib} {NL : NumPyLib} {SL : SennLib} {host : Host}.

(** What the script does that can be observed from outside, in order. *)
Inductive event : Type :=
| TorchLoad (path : string)
| Train (t : trainer Model) (epochs : Z) (save_path : string)
| PlotLosses (t : trainer Model) (save_path : string)
| Print (items : list pyobj)
| Tqdm (total : Z)
| PltHist (values : list Item) (color edgecolor : string) (bins : Z)
| PltXlabel (s : string)
| PltYlabel (s : string)
| PltShow
| PltSubplots (n : Z)
| AxPlot (xs : list float) (ys : list Scalar) (lw : Z) (label color : string)
| AxFillBetween (xs : list float) (y1 y2 : list Scalar) (facecolor : string)
                (alpha : float)
| AxSetTitle (s : string)
| AxLegend (loc : string)
| AxSetXlabel (s : string)
| AxSetYlabel (s : string)
| AxGrid.

Record world : Type := {
  rng : Rng;
  trace : list event;
}.

Definition emit (e : event) : M world unit :=
  λ w, (Ok (), {| rng := rng w; trace := trace w ++ [e] |}).

(** A library call that draws from the global generator. *)
Definition draw {A} (f : Rng → A * Rng) : M world A :=
  λ w, let '(a, g) := f (rng w) in (Ok a, {| rng := g; trace := trace w |}).

Definition draw_result {A} (f : Rng → result A * Rng) : M world A :=
  λ w, let '(r, g) := f (rng w) in (r, {| rng := g; trace := trace w |}).

(** *** [load_mnist_data] (lines 63-95) *)

Definition load_mnist_data (valid_size : float) (shuffle : bool)
    (random_seed batch_size num_workers : Z)
  : result (DataLoader Tensor * DataLoader Tensor * DataLoader Tensor
            * list (Tensor * Z) * list (Tensor * Z)) :=
  let train := mnist_train in
  let test := mnist_test in
  let num_train := len train in
  let indices := range num_train in
  split ← int_floor (valid_size * float_of_Z num_train)%float;
  let train_idx := slice_from indices split in
  let valid_idx := slice_to indices split in
  let train_sampler := SubsetRandomSampler train_idx in
  let valid_sampler := SubsetRandomSampler valid_idx in
  (* the in-place shuffle acts on the list object [indices]; the two slices
     above are list objects of their own *)
  let indices :=
    if shuffle then np_random_shuffle random_seed indices else indices in
  let train_loader :=
    {| dataset := train; sampler := Some train_sampler;
       loader_batch_size := batch_size; loader_num_workers := num_workers;
       loader_shuffle := None |} in
  let valid_loader :=
    {| dataset := train; sampler := Some valid_sampler;
       loader_batch_size := batch_size; loader_num_workers := num_workers;
       loader_shuffle := None |} in
  let test_loader :=
    {| dataset := test; sampler := None;
       loader_batch_size := batch_size; loader_num_workers := num_workers;
       loader_shuffle := Some false |} in
  Ok (train_loader, valid_loader, test_loader, train, test).

(** *** [parse_args] (lines 97-125) *)

(** The line [print("\t{}={}".format(attr.upper(), value))] writes; the
    string starts with a tab. *)
Definition parameter_line (attr value : string) : event :=
  Print [PyStr (String "009"%char (upper attr +:+ "=" +:+ value))].

(** Building the parser and parsing are argparse's; the function itself
    prints the namespace, sorted by attribute name, and returns it.  The
    heading starts with a newline. *)
Definition parse_args : M world Args :=
  let args := parser_parse_args in
  _ ← emit (Print [PyStr (String "010"%char "Parameters:")]);
  _ ← foldM (λ _ '(attr, value), emit (parameter_line attr value))
            (sorted (map_to_list args_dict)) ();
  mret args.

(** *** [eval_stability_2] (lines 127-151) *)

(** [expl.net.forward(t, h_options = -1).data.numpy().squeeze()] *)
Definition concept_values (expl : explainer Model Tensor) (t : Tensor)
  : result Array :=
  h ← net_forward (net expl) t (-1); Ok (data_numpy_squeeze h).

(** [expl(t)[0]] *)
Definition explanation (expl : explainer Model Tensor) (t : Tensor)
  : result Array :=
  rows ← expl_call expl t; getitem rows 0.

(** The body of the loop for sample [i], up to [dist].
    [Variable(..., volatile = True)] only wraps its tensor; it is left out. *)
Definition sample_distance (test_tds : DataLoader Tensor)
    (expl : explainer Model Tensor) (scale : float) (our_method : bool)
    (i : Z) : M world Scalar :=
  sample ← lift (getitem (dataset test_tds) i);
  x ← lift (view_1_1_28_28 sample.1);
  h_x ← lift (concept_values expl x);
  theta ← lift (explanation expl x);
  deps ← lift (if our_method then np_multiply theta h_x else Ok theta);
  (* Add noise to sample and repeat *)
  r ← draw (torch_randn (tensor_size x));
  let noise := scale_mul scale r in
  h_x ← lift (concept_values expl noise);
  theta ← lift (explanation expl noise);
  deps_noise ← lift (if our_method then np_multiply theta h_x else Ok theta);
  diff ← lift (np_subtract deps deps_noise);
  mret (np_linalg_norm diff).

Definition eval_stability_2 (test_tds : DataLoader Tensor)
    (expl : explainer Model Tensor) (scale : float) (our_method : bool)
  : M world (list Scalar) :=
  _ ← emit (Tqdm 10000);
  foldM (λ distances i,
    dist ← sample_distance test_tds expl scale our_method i;
    mret (distances ++ [dist]))
  (range 10000) [].

(** *** [plot_distribution_h] (lines 153-189) *)

(** The body of the loop for sample [i]: [values] after the iteration. *)
Definition collect_value (test_tds : DataLoader Tensor)
    (expl : explainer Model Tensor) (plot_type : string)
    (values : list Array) (i : Z) : M world (list Array) :=
  sample ← lift (getitem (dataset test_tds) i);
  x ← lift (view_1_1_28_28 sample.1);
  if String.eqb plot_type "h(x)" then
    h_x ← lift (concept_values expl x);
    mret (values ++ [h_x])
  else if String.eqb plot_type "theta(x)" then
    theta ← lift (explanation expl x);
    mret (values ++ [theta])
  else if String.eqb plot_type "theta(x)h(x)" then
    h_x ← lift (concept_values expl x);
    theta ← lift (explanation expl x);
    p ← lift (np_multiply theta h_x);
    mret (values ++ [p])
  else mret values.

Definition plot_distribution_h (test_tds : DataLoader Tensor)
    (expl : explainer Model Tensor) (plot_type : string) : M world unit :=
  _ ← emit (Tqdm 10000);
  values ← foldM (collect_value test_tds expl plot_type) (range 10000) [];
  let values := concat (map array_iter values) in
  let '(xtitle, ytitle, plot_color) :=
    if String.eqb plot_type "h(x)" then
      (Some "Concept values h(x)", Some "p(h(x))", Some "blue")
    else if String.eqb plot_type "theta(x)" then
      (Some "Theta values", Some "p(theta(x))", Some "pink")
    else if String.eqb plot_type "theta(x)h(x)" then
      (Some "Theta(x)^T h(x) values", Some "p(theta(x)^T h(x)", Some "purple")
    else (None, None, None) in
  _ ← emit (Print [PyStr "len values"; PyInt (len values)]);
  plot_color ← lift (local_name "plot_color" plot_color);
  _ ← emit (PltHist values plot_color "#CCE6FF" 20);
  xtitle ← lift (local_name "xtitle" xtitle);
  _ ← emit (PltXlabel xtitle);
  ytitle ← lift (local_name "ytitle" ytitle);
  _ ← emit (PltYlabel ytitle);
  emit PltShow.

(** *** [main] (lines 193-288) *)

(** [torch.load(path, ...)] *)
Definition torch_load (path : string) : M world (gmap string Model) :=
  _ ← emit (TorchLoad path);
  lift (match files !! path with
        | Some checkpoint => Ok checkpoint
        | None => Raise (FileNotFoundError path)
        end).

(** [checkpoint[key]] *)
Definition checkpoint_getitem (checkpoint : gmap string Model) (key : string)
  : result Model :=
  match checkpoint !! key with
  | Some m => Ok m
  | None => Raise KeyError
  end.

(** Lines 219-223: [if args.load_model: ...] *)
Definition load_existing (args : Args) (model_path : string) (model : Model)
  : M world Model :=
  if load_model args then
    checkpoint ← torch_load (path_join model_path "model_best.pth.tar");
    lift (checkpoint_getitem checkpoint "model")
  else mret model.

(** Lines 225-237: the trainer for [args.theta_reg_type]. *)
Definition select_trainer (model : Model) (args : Args)
  : result (trainer Model) :=
  match theta_reg_type args with
  | None => _ ← global_name "VanillaClassTrainer";
            Ok (VanillaClassTrainer model args)
  | Some s =>
      if String.eqb s "unreg" || String.eqb s "none" then
        _ ← global_name "VanillaClassTrainer";
        Ok (VanillaClassTrainer model args)
      else if String.eqb s "grad1" then
        _ ← global_name "GradPenaltyTrainer";
        Ok (GradPenaltyTrainer model args 1)
      else if String.eqb s "grad2" then
        _ ← global_name "GradPenaltyTrainer";
        Ok (GradPenaltyTrainer model args 2)
      else if String.eqb s "grad3" then
        _ ← global_name "GradPenaltyTrainer";
        Ok (GradPenaltyTrainer model args 3)
      else if String.eqb s "crosslip" then
        _ ← global_name "CLPenaltyTrainer";
        Ok (CLPenaltyTrainer model args)
      else Raise (ValueError "Unrecoginzed theta_reg_type")
  end.

(** Lines 239-249: train, or load the checkpoint.  Training updates the
    model object in place; [model] names that object, so the trained state
    is what [model] holds afterwards. *)
Definition train_or_load (args : Args) (model_path results_path : string)
    (train_loader valid_loader : DataLoader Tensor)
    (model : Model) (t : trainer Model) : M world (Model * trainer Model) :=
  if negb (load_model args) && train args then
    _ ← emit (Train t (epochs args) model_path);
    model ← draw_result
              (trainer_train t train_loader valid_loader (epochs args) model_path);
    _ ← emit (PlotLosses t results_path);
    mret (model, t)
  else
    checkpoint ← torch_load (path_join model_path "model_best.pth.tar");
    model ← lift (checkpoint_getitem checkpoint "model");
    _ ← lift (global_name "VanillaClassTrainer");
    mret (model, VanillaClassTrainer model args).

(** Lines 280-286: the loop over the noise scales. *)
Definition noise_sweep (test_loader : DataLoader Tensor)
    (expl : explainer Model Tensor) (noises : list float)
  : M world (dict (list Scalar) * dict (list Scalar)) :=
  foldM (λ '(dist_dict, dist_dict_2) noise,
    distances ← eval_stability_2 test_loader expl noise false;
    distances_2 ← eval_stability_2 test_loader expl noise true;
    mret (dict_set dist_dict noise distances,
          dict_set dist_dict_2 noise distances_2))
  noises ([], []).

(** The local variables of [main] that are live after line 249. *)
Record setup : Type := {
  s_args : Args;
  s_model_path : string;
  s_results_path : string;
  s_train_loader : DataLoader Tensor;
  s_test_loader : DataLoader Tensor;
  s_model : Model;
  s_trainer : trainer Model;
}.

(** Lines 194-249: arguments, data, model, trainer, training or loading. *)
Definition main_setup : M world setup :=
  args ← parse_args;
  let args := set_nclasses args 10 in
  let args := set_theta_dim args (nclasses args) in
  let '(model_path, log_path, results_path) :=
    generate_dir_names "mnist" args in
  '(train_loader, valid_loader, test_loader, train_tds, test_tds) ←
    lift (load_mnist_data 0.1 true 2008 (batch_size args) (num_workers args));
  (* Set h_type *)
  let '(conceptizer, args) :=
    if String.eqb (h_type args) "input" then
      (input_conceptizer,
       set_nconcepts args (28 * 28 + (if nobias args then 0 else 1)))
    else if String.eqb (h_type args) "cnn" then
      (image_cnn_conceptizer (28 * 28) (nconcepts args) (concept_dim args), args)
    else
      (image_fcc_conceptizer (28 * 28) (nconcepts args) (concept_dim args), args)
  in
  (* Initialize model *)
  let parametrizer :=
    image_parametrizer (28 * 28) (nconcepts args) (theta_dim args)
                       (positive_theta args) in
  let aggregator :=
    additive_scalar_aggregator (concept_dim args) (nclasses args) in
  model ← draw (GSENN conceptizer parametrizer aggregator);
  model ← load_existing args model_path model;
  t ← lift (select_trainer model args);
  '(model, t) ← train_or_load args model_path results_path
                  train_loader valid_loader model t;
  mret {| s_args := args; s_model_path := model_path;
          s_results_path := results_path;
          s_train_loader := train_loader; s_test_loader := test_loader;
          s_model := model; s_trainer := t |}.

(** Lines 257-268: [model.eval()] and the explainer built on the model. *)
Definition main_explainer (s : setup) : explainer Model Tensor :=
  let features := None in
  let classes := map pretty (range 10) in
  let model := model_eval (s_model s) in
  gsenn_wrapper model "classification" "image" true features classes
                (s_train_loader s) true false.

(** Lines 252-288: the histograms and the noise sweep. *)
Definition main_evaluation (s : setup)
  : M world (dict (list Scalar) * dict (list Scalar) * list float) :=
  _ ← emit (Print [PyStr "Done training/ loading model"]);
  let expl := main_explainer s in
  _ ← emit (Print [PyStr "Results_path"; PyStr (s_results_path s)]);
  (* Make histogram *)
  _ ← plot_distribution_h (s_test_loader s) expl "theta(x)h(x)";
  _ ← plot_distribution_h (s_test_loader s) expl "theta(x)";
  _ ← plot_distribution_h (s_test_loader s) expl "h(x)";
  noises ← lift (np_arange 0 0.21 0.02);
  '(dist_dict, dist_dict_2) ← noise_sweep (s_test_loader s) expl noises;
  mret (dist_dict, dist_dict_2, noises).

Definition main
  : M world (dict (list Scalar) * dict (list Scalar) * list float) :=
  s ← main_setup; main_evaluation s.

(** *** The [__main__] block (lines 296-324) *)

(** [[np.mean(d[noise]) for noise in noises]], and the same with [np.std] *)
Definition per_scale (f : list Scalar → Scalar) (d : dict (list Scalar))
    (noises : list float) : result (list Scalar) :=
  result_mapM (λ noise, ds ← dict_get d noise; Ok (f ds)) noises.

(** [[op(a[i], b[i]) for i in range(len(a))]] *)
Definition pointwise (op : Scalar → Scalar → Scalar) (a b : list Scalar)
  : result (list Scalar) :=
  result_mapM (λ i, x ← getitem a i; y ← getitem b i; Ok (op x y))
              (range (len a)).

(** The numbers the final figure shows, for one variant. *)
Record band : Type := {
  b_means : list Scalar;
  b_stds : list Scalar;
  b_min : list Scalar;
  b_max : list Scalar;
}.

Definition aggregate (d : dict (list Scalar)) (noises : list float)
  : result band :=
  means ← per_scale np_mean d noises;
  stds ← per_scale np_std d noises;
  means_min ← pointwise scalar_sub means stds;
  means_max ← pointwise scalar_add means stds;
  Ok {| b_means := means; b_stds := stds;
        b_min := means_min; b_max := means_max |}.

(** Lines 297-324.  The eight list comprehensions are [aggregate], once
    per variant. *)
Definition script : M world unit :=
  _ ← main;
  '(distances, distances_2, noises) ← main;
  b ← lift (aggregate distances noises);
  b2 ← lift (aggregate distances_2 noises);
  _ ← emit (PltSubplots 1);
  _ ← emit (AxPlot noises (b_means b) 2 "theta(x)" "blue");
  _ ← emit (AxPlot noises (b_means b2) 2 "theta(x)^T h(x)" "purple");
  _ ← emit (AxFillBetween noises (b_max b) (b_min b) "blue" 0.3);
  _ ← emit (AxFillBetween noises (b_max b2) (b_min b2) "purple" 0.3);
  _ ← emit (AxSetTitle "Stability");
  _ ← emit (AxLegend "upper left");
  _ ← emit (AxSetXlabel "Added noise");
  _ ← emit (AxSetYlabel "Norm of relevance coefficients");
  _ ← emit AxGrid;
  emit PltShow.

(** *** The specification's rules, in its own words

    These follow the text of the specification, not the code; the theorems
    compare the code with them. *)

(** "deps = theta(x) (.) h(x) when the variant flag is true, deps = theta(x)
    otherwise" *)
Definition spec_deps (expl : explainer Model Tensor) (variant : bool)
    (t : Tensor) : result Array :=
  theta ← explanation expl t;
  if variant then h ← concept_values expl t; np_multiply theta h
  else Ok theta.

(** "distance = ||deps - deps_noise||_2", with deps_noise by the same rule
    at the tensor [at_noise] *)
Definition spec_distance (expl : explainer Model Tensor) (variant : bool)
    (x at_noise : Tensor) : result Scalar :=
  deps ← spec_deps expl variant x;
  deps_noise ← spec_deps expl variant at_noise;
  diff ← np_subtract deps deps_noise;
  Ok (np_linalg_norm diff).

(** The distance recorded for sample [i]: its image, viewed as a batch of
    one, against the scaled tensor [torch.randn] returned for its size in
    some state of the generator. *)
Definition recorded (test_tds : DataLoader Tensor)
    (expl : explainer Model Tensor) (scale : float) (variant : bool)
    (i : Z) (d : Scalar) : Prop :=
  ∃ sample x g,
    getitem (dataset test_tds) i = Ok sample ∧
    view_1_1_28_28 sample.1 = Ok x ∧
    spec_distance expl variant x
      (scale_mul scale (torch_randn (tensor_size x) g).1) = Ok d.

(** "the quantity selected by plot_type: concept activation h(x),
    explanation theta(x), or their element-wise product" *)
Definition spec_quantity (expl : explainer Model Tensor) (plot_type : string)
    (x : Tensor) : result Array :=
  if String.eqb plot_type "h(x)" then concept_values expl x
  else if String.eqb plot_type "theta(x)" then explanation expl x
  else h ← concept_values expl x; theta ← explanation expl x;
       np_multiply theta h.

(** "the training-set indices are shuffled under that seed (when shuffle is
    true) and the first floor(valid_size * num_train) of the resulting index
    order become the validation set, the remaining indices the training
    set": (training indices, validation indices). *)
Definition spec_split (valid_size : float) (shuffle : bool) (random_seed : Z)
  : result (list Z * list Z) :=
  let num_train := len mnist_train in
  let indices := range num_train in
  let indices :=
    if shuffle then np_random_shuffle random_seed indices else indices in
  split ← int_floor (valid_size * float_of_Z num_train)%float;
  Ok (slice_from indices split, slice_to indices split).

(** The indices a loader's sampler was given. *)
Definition sampler_indices {T} (l : DataLoader T) : option (list Z) :=
  match sampler l with
  | Some (SubsetRandomSampler idx) => Some idx
  | None => None
  end.

(** The quantity collected for sample [i]. *)
Definition collected (test_tds : DataLoader Tensor)
    (expl : explainer Model Tensor) (plot_type : string) (i : Z) (a : Array)
  : Prop :=
  ∃ sample x,
    getitem (dataset test_tds) i = Ok sample ∧
    view_1_1_28_28 sample.1 = Ok x ∧
    spec_quantity expl plot_type x = Ok a.

(** The indices the three loaders of [load_mnist_data] sample from:
    training, validation, test. *)
Definition loader_indices (valid_size : float) (shuffle : bool)
    (random_seed batch_size num_workers : Z)
  : result (option (list Z) * option (list Z) * option (list Z)) :=
  '(train_loader, valid_loader, test_loader, _, _) ←
    load_mnist_data valid_size shuffle random_seed batch_size num_workers;
  Ok (sampler_indices train_loader, sampler_indices valid_loader,
      sampler_indices test_loader).

(** A computation is silent when it leaves the trace as it found it,
    whether it returns or raises. *)
Definition silent {A} (m : M world A) : Prop := ∀ w, trace (m w).2 = trace w.

(** What the sweep has stored for scale [k]: the two sequences are what
    the two runs of the evaluator returned, the raw variant first. *)
Definition swept (test_tds : DataLoader Tensor)
    (expl : explainer Model Tensor) (d d2 : dict (list Scalar)) (k : float)
  : Prop :=
  ∃ ds ds2 w1 w2 w3,
    eval_stability_2 test_tds expl k false w1 = (Ok ds, w2) ∧
    eval_stability_2 test_tds expl k true w2 = (Ok ds2, w3) ∧
    dict_get d k = Ok ds ∧ dict_get d2 k = Ok ds2 ∧
    len ds = 10000 ∧ len ds2 = 10000.

(** How often events of one kind occur in a trace. *)
Definition count (p : event → bool) (t : list event) : nat :=
  length (List.filter p t).

Definition is_hist (e : event) : bool :=
  match e with PltHist _ _ _ _ => true | _ => false end.
Definition is_tqdm (e : event) : bool :=
  match e with Tqdm _ => true | _ => false end.

(** The calls that draw the final figure. *)
Definition figure (noises : list float) (b b2 : band) : list event :=
  [ PltSubplots 1;
    AxPlot noises (b_means b) 2 "theta(x)" "blue";
    AxPlot noises (b_means b2) 2 "theta(x)^T h(x)" "purple";
    AxFillBetween noises (b_max b) (b_min b) "blue" 0.3;
    AxFillBetween noises (b_max b2) (b_min b2) "purple" 0.3;
    AxSetTitle "Stability"; AxLegend "upper left";
    AxSetXlabel "Added noise";
    AxSetYlabel "Norm of relevance coefficients";
    AxGrid; PltShow ].

(** What a call of [parse_args] prints: the heading, then one line per
    attribute of the namespace in the order of the attribute names. *)
Definition parse_args_output : list event :=
  Print [PyStr (String "010"%char "Parameters:")]
  :: map (λ item, parameter_line item.1 item.2)
         (sorted (map_to_list args_dict)).

End Script.

(* ===================================================================== *)
(** ** numpy on float64 vectors *)
(* ===================================================================== *)

(** An element-wise operation on two vectors; a vector of one element
    broadcasts. *)
Definition f64_elementwise (op : float → float → float) (a b : list float)
  : result (list float) :=
  match a, b with
  | _, [y] => Ok (map (λ x, op x y) a)
  | [x], _ => Ok (map (λ y, op x y) b)
  | _, _ =>
      if Nat.eqb (length a) (length b) then Ok (zip_with op a b)
      else Raise (ValueError "operands could not be broadcast together")
  end.

(** The sum, accumulated left to right.  (numpy adds long inputs in blocks;
    for fewer than eight elements it is this loop.) *)
Definition f64_sum (l : list float) : float := fold_left PrimFloat.add l 0%float.

Definition f64_mean (l : list float) : float :=
  (f64_sum l / float_of_Z (len l))%float.

(** [np.std]: the square root of the mean squared deviation from the mean. *)
Definition f64_std (l : list float) : float :=
  let m := f64_mean l in
  PrimFloat.sqrt (f64_mean (map (λ x, ((x - m) * (x - m))%float) l)).

(** [np.linalg.norm] of a vector: the square root of the sum of squares. *)
Definition f64_norm (a : list float) : float :=
  PrimFloat.sqrt (f64_sum (map (λ x, (x * x)%float) a)).

#[export] Instance numpy_f64 : NumPyLib := {|
  Array := list float;
  Item := float;
  Scalar := float;
  np_multiply := f64_elementwise PrimFloat.mul;
  np_subtract := f64_elementwise PrimFloat.sub;
  np_linalg_norm := f64_norm;
  array_iter := λ a, a;
  np_mean := f64_mean;
  np_std := f64_std;
  scalar_add := PrimFloat.add;
  scalar_sub := PrimFloat.sub;
|}.

(* ===================================================================== *)
(** ** A small instance to run the script on

    Images of one pixel, a generator that counts its draws and returns
    0.5 or -0.75, a model that is one weight [m] with [h(x) = x] and
    [theta(x) = m * x + 1]. *)
(* ===================================================================== *)

Definition toy_draw (g : Z) : float :=
  if Z.even g then 0.5%float else (-0.75)%float.

#[export] Instance toy_torch : TorchLib := {|
  Tensor := list float;
  Size := nat;
  Rng := Z;
  view_1_1_28_28 := λ t, Ok t;
  tensor_size := λ t, length t;
  torch_randn := λ n g, (replicate n (toy_draw g), g + 1);
  scale_mul := λ c t, map (PrimFloat.mul c) t;
|}.

Definition toy_trainer_model (t : trainer float) : float :=
  match t with
  | VanillaClassTrainer m _ => m
  | GradPenaltyTrainer m _ _ => m
  | CLPenaltyTrainer m _ => m
  end.

#[export] Instance toy_senn : @SennLib toy_torch numpy_f64 := {|
  Model := float;
  GSENN := λ _ _ _ g, (float_of_Z (g `mod` 3), g + 1);
  trainer_train := λ t _ _ _ _ g, (Ok (toy_trainer_model t + 1)%float, g + 1);
  model_eval := λ m, m;
  net_forward := λ _ t _, Ok t;
  data_numpy_squeeze := λ t, t;
  expl_call := λ e t, Ok [map (λ v, (net e * v + 1)%float) t];
|}.

Definition toy_args : Args := {|
  batch_size := 64; num_workers := 1; h_type := "cnn"; nobias := false;
  nconcepts := 5; concept_dim := 1; positive_theta := false;
  load_model := true; theta_reg_type := Some "grad3"; train := false;
  epochs := 10; nclasses := 2; theta_dim := 2;
|}.

Definition toy_sample : list float * Z := ([2%float], 7).

(** Ten thousand copies of one test image. *)
Definition toy_test_set : list (list float * Z) :=
  replicate (Z.to_nat 10000) toy_sample.

(** The toy host, for a given test set. *)
Definition toy_host_with (test_set : list (list float * Z))
  : @Host toy_torch numpy_f64 toy_senn := {|
  parser_parse_args := toy_args;
  args_dict := {[ "optim" := "gp"; "lip_calls" := "10"; "h_type" := "cnn" ]};
  generate_dir_names := λ d _, ("models/" +:+ d, "log/" +:+ d, "out/" +:+ d);
  mnist_train := replicate 10 toy_sample;
  mnist_test := test_set;
  files := {[ "models/mnist/model_best.pth.tar" := {[ "model" := 3%float ]} ]};
  np_random_shuffle := λ _ l, reverse l;
|}.

#[export] Instance toy_host : @Host toy_torch numpy_f64 toy_senn :=
  toy_host_with toy_test_set.

Definition toy_world : @world toy_torch numpy_f64 toy_senn :=
  {| rng := 0; trace := [] |}.

Definition toy_loader : DataLoader (list float) :=
  {| dataset := toy_test_set; sampler := None;
     loader_batch_size := 64; loader_num_workers := 1;
     loader_shuffle := Some false |}.

(** What [main] has set up on the toy host when line 249 is reached. *)
Definition toy_setup (test_set : list (list float * Z))
  : @setup toy_torch numpy_f64 toy_senn :=
  let args := set_theta_dim (set_nclasses toy_args 10) 10 in
  {| s_args := args;
     s_model_path := "models/mnist";
     s_results_path := "out/mnist";
     s_train_loader :=
       {| dataset := replicate 10 toy_sample;
          sampler := Some (SubsetRandomSampler [1; 2; 3; 4; 5; 6; 7; 8; 9]);
          loader_batch_size := 64; loader_num_workers := 1;
          loader_shuffle := None |};
     s_test_loader :=
       {| dataset := test_set; sampler := None;
          loader_batch_size := 64; loader_num_workers := 1;
          loader_shuffle := Some false |};
     s_model := 3%float;
     s_trainer := VanillaClassTrainer 3%float args |}.

Definition toy_checkpoint_path : string := "models/mnist/model_best.pth.tar".

Definition toy_expl : explainer float (list float) :=
  gsenn_wrapper 3%float "classification" "image" true None [] toy_loader
                true false.

(* ===================================================================== *)
(** ** What the further properties speak about *)
(* ===================================================================== *)

(** No two of the keys are the same key: none compares equal to a later
    one.  (A NaN compares equal to nothing, so it is a key of its own each
    time it is set.) *)
Fixpoint different_keys (ks : list float) : bool :=
  match ks with
  | [] => true
  | k :: ks' =>
      forallb (λ k', negb (k =? k')%float) ks' && different_keys ks'
  end.

Section Observations.
Context {TL : TorchLib} {NL : NumPyLib} {SL : SennLib} {host : Host}.

(** Image [x] is what the loops see of test sample [i]: the first component
    of [test_tds.dataset[i]], viewed as a batch of one. *)
Definition sample_image (test_tds : DataLoader Tensor) (i : Z) (x : Tensor)
  : Prop :=
  ∃ sample,
    getitem (dataset test_tds) i = Ok sample ∧
    view_1_1_28_28 sample.1 = Ok x.

(** The noise tensors for the images [xs], drawn one after the other from
    the generator in state [g], and the state the generator is left in. *)
Fixpoint draw_noises (scale : float) (xs : list Tensor) (g : Rng)
  : list Tensor * Rng :=
  match xs with
  | [] => ([], g)
  | x :: xs' =>
      let '(r, g1) := torch_randn (tensor_size x) g in
      let '(noises, g2) := draw_noises scale xs' g1 in
      (scale_mul scale r :: noises, g2)
  end.

(** A computation keeps the generator when it leaves it in the state it
    found it in, whether it returns or raises. *)
Definition keeps_rng {A} (m : M world A) : Prop := ∀ w, rng (m w).2 = rng w.

End Observations.

(** The toy test set with one more sample after the first 10000. *)
Definition toy_loader_longer : DataLoader (list float) :=
  {| dataset := toy_test_set ++ [([3%float], 1)]; sampler := None;
     loader_batch_size := 64; loader_num_workers := 1;
     loader_shuffle := Some false |}.

(** The toy host without the checkpoint file. *)
Definition toy_host_no_checkpoint : @Host toy_torch numpy_f64 toy_senn := {|
  parser_parse_args := toy_args;
  args_dict := {[ "optim" := "gp"; "lip_calls" := "10"; "h_type" := "cnn" ]};
  generate_dir_names := λ d _, ("models/" +:+ d, "log/" +:+ d, "out/" +:+ d);
  mnist_train := replicate 10 toy_sample;
  mnist_test := [];
  files := ∅;
  np_random_shuffle := λ _ l, reverse l;
|}.

(* ===================================================================== *)
(** * Properties *)
(* ===================================================================== *)

(** ** Sequences *)

(* [range 10000] and the lookup of a global name stay folded under [simpl]. *)
#[local] Arguments range : simpl never.
#[local] Arguments global_name : simpl never.

Lemma range_length n : length (range n) = Z.to_nat n.
Proof. unfold range. now rewrite length_map, length_seq. Qed.

Lemma range_lookup n i : 0 ≤ i < n → range n !! Z.to_nat i = Some i.
Proof.
  intros Hi. unfold range. rewrite list_lookup_fmap.
  rewrite lookup_seq_lt by lia. simpl. f_equal. lia.
Qed.

Lemma range_lookup_inv n j i : range n !! j = Some i → i = Z.of_nat j ∧ 0 ≤ i < n.
Proof.
  unfold range. rewrite list_lookup_fmap. intros H.
  destruct (seq 0 (Z.to_nat n) !! j) as [k|] eqn:E; simplify_eq/=.
  apply lookup_seq in E as [-> Hlt]. lia.
Qed.

Lemma getitem_lookup {A} (l : list A) i a :
  0 ≤ i → l !! Z.to_nat i = Some a → getitem l i = Ok a.
Proof.
  intros Hi Hl. unfold getitem.
  destruct (i <? 0) eqn:E1; [lia|].
  destruct (i <? 0) eqn:E2; [lia|]. now rewrite Hl.
Qed.

Lemma getitem_Ok_nonneg {A} (l : list A) i a :
  0 ≤ i → getitem l i = Ok a → l !! Z.to_nat i = Some a.
Proof.
  intros Hi. unfold getitem.
  destruct (i <? 0) eqn:E1; [lia|]. rewrite E1.
  destruct (l !! Z.to_nat i); congruence.
Qed.

Lemma getitem_replicate {A} n (x : A) i :
  0 ≤ i < Z.of_nat n → getitem (replicate n x) i = Ok x.
Proof.
  intros Hi. apply getitem_lookup; [lia|].
  apply lookup_replicate. split; [done|lia].
Qed.

(** ** The monads *)

Lemma result_bind_Ok {A B} (r : result A) (k : A → result B) b :
  r ≫= k = Ok b → ∃ a, r = Ok a ∧ k a = Ok b.
Proof. destruct r as [a|e]; simpl; [eauto|discriminate]. Qed.

Lemma M_bind_Ok {W A B} (m : M W A) (k : A → M W B) w b w' :
  (m ≫= k) w = (Ok b, w') → ∃ a w1, m w = (Ok a, w1) ∧ k a w1 = (Ok b, w').
Proof.
  unfold mbind, M_bind. destruct (m w) as [[a|e] w1]; [eauto|discriminate].
Qed.

Lemma M_ret_Ok {W A} (a b : A) (w w' : W) :
  (mret a : M W A) w = (Ok b, w') → b = a ∧ w' = w.
Proof. unfold mret, M_ret. intros [= -> ->]. done. Qed.

Lemma lift_Ok {W A} (r : result A) (w w' : W) a :
  lift r w = (Ok a, w') → r = Ok a ∧ w' = w.
Proof. unfold lift. intros [= -> ->]. done. Qed.

Lemma foldM_Ok_ind {W S A} (body : S → A → M W S) (P : list A → S → W → Prop) :
  (∀ done s w a s' w',
      P done s w → body s a w = (Ok s', w') → P (done ++ [a]) s' w') →
  ∀ l done s w s' w',
    P done s w → foldM body l s w = (Ok s', w') → P (done ++ l) s' w'.
Proof.
  intros Hstep l. induction l as [|a l IH]; intros done s w s' w' HP Hrun.
  - apply M_ret_Ok in Hrun as [-> ->]. now rewrite app_nil_r.
  - simpl in Hrun. apply M_bind_Ok in Hrun as (s1 & w1 & Hbody & Hrest).
    replace (done ++ a :: l) with ((done ++ [a]) ++ l) by now rewrite <- app_assoc.
    eapply IH; [|exact Hrest]. eapply Hstep; eauto.
Qed.

Lemma foldM_Ok_inv {W S A} (body : S → A → M W S) (P : list A → S → W → Prop) :
  (∀ done s w a s' w',
      P done s w → body s a w = (Ok s', w') → P (done ++ [a]) s' w') →
  ∀ l s w s' w', P [] s w → foldM body l s w = (Ok s', w') → P l s' w'.
Proof. intros Hstep l s w s' w'. apply (foldM_Ok_ind body P Hstep l []). Qed.

(** A loop whose body leaves a component of the world alone leaves it
    alone, however the loop ends. *)
Lemma foldM_preserves {W S A T} (f : W → T) (body : S → A → M W S) :
  (∀ s a w, f (body s a w).2 = f w) →
  ∀ l s w, f (foldM body l s w).2 = f w.
Proof.
  intros Hbody l. induction l as [|a l IH]; intros s w; [done|].
  simpl. unfold mbind, M_bind. specialize (Hbody s a w).
  destruct (body s a w) as [[s1|e] w1]; simpl in *; [|done].
  now rewrite IH.
Qed.

(** A loop whose body never raises on the elements it visits returns. *)
Lemma foldM_total {W S A} (body : S → A → M W S) l :
  (∀ s a w, a ∈ l → ∃ s' w', body s a w = (Ok s', w')) →
  ∀ s w, ∃ s' w', foldM body l s w = (Ok s', w').
Proof.
  induction l as [|a l IH]; intros Hbody s w; [simpl; eauto|].
  destruct (Hbody s a w) as (s1 & w1 & H1); [set_solver|].
  destruct (IH (λ s a' w Hin, Hbody s a' w (proj2 (elem_of_cons l a' a) (or_intror Hin)))
               s1 w1) as (s' & w' & H2).
  exists s', w'. simpl. unfold mbind, M_bind. now rewrite H1.
Qed.

Section Properties.
Context {TL : TorchLib} {NL : NumPyLib} {SL : SennLib} {host : Host}.

Implicit Types (w : world) (expl : explainer Model Tensor)
  (test_tds : DataLoader Tensor).

Lemma emit_Ok e w u w' :
  emit e w = (Ok u, w') → w' = {| rng := rng w; trace := trace w ++ [e] |}.
Proof. unfold emit. now intros [= _ <-]. Qed.

Lemma draw_Ok {A} (f : Rng → A * Rng) w a w' :
  draw f w = (Ok a, w') →
  f (rng w) = (a, rng w') ∧ trace w' = trace w.
Proof.
  unfold draw. destruct (f (rng w)) as [a0 g]. now intros [= <- <-].
Qed.

(** Inverts a successful run, one statement at a time. *)
Ltac run_inv H :=
  repeat match type of H with
  | (_ ≫= _) _ = (Ok _, _) =>
      let H1 := fresh "Hrun" in
      apply M_bind_Ok in H as (? & ? & H1 & H);
      try (apply lift_Ok in H1 as [H1 ->]);
      try (apply emit_Ok in H1 as ->)
  | @mret _ _ _ _ _ = (Ok _, _) => apply M_ret_Ok in H as [-> ->]
  | lift _ _ = (Ok _, _) => apply lift_Ok in H as [H ->]
  | emit _ _ = (Ok _, _) => apply emit_Ok in H as ->
  end.

(** ** [eval_stability_2] *)

Lemma sample_distance_Ok test_tds expl scale our_method i w d w' :
  sample_distance test_tds expl scale our_method i w = (Ok d, w') →
  recorded test_tds expl scale our_method i d ∧ trace w' = trace w.
Proof.
  unfold sample_distance. intros H. run_inv H.
  apply draw_Ok in Hrun4 as [Hdraw Htrace].
  split; [|done].
  eexists _, _, (rng w). repeat split; [eassumption..|].
  rewrite Hdraw. simpl. unfold spec_distance, spec_deps.
  rewrite Hrun2, Hrun6. simpl.
  destruct our_method; simpl.
  - rewrite Hrun1, Hrun5. simpl. rewrite Hrun3, Hrun7. simpl.
    now rewrite Hrun8.
  - simplify_eq. simpl. now rewrite Hrun8.
Qed.

Lemma silent_ret {A} (a : A) : silent (mret a).
Proof. now intros w. Qed.

Lemma silent_lift {A} (r : result A) : silent (lift r).
Proof. now intros w. Qed.

Lemma silent_draw {A} (f : Rng → A * Rng) : silent (draw f).
Proof. intros w. unfold draw. now destruct (f (rng w)). Qed.

Lemma silent_draw_result {A} (f : Rng → result A * Rng) : silent (draw_result f).
Proof. intros w. unfold draw_result. now destruct (f (rng w)). Qed.

Lemma silent_bind {A B} (m : M world A) (k : A → M world B) :
  silent m → (∀ a, silent (k a)) → silent (m ≫= k).
Proof.
  intros Hm Hk w. unfold mbind, M_bind. specialize (Hm w).
  destruct (m w) as [[a|e] w1]; simpl in *; [|done].
  now rewrite Hk.
Qed.

Lemma silent_if {A} (b : bool) (m1 m2 : M world A) :
  silent m1 → silent m2 → silent (if b then m1 else m2).
Proof. now destruct b. Qed.

Create HintDb silent.
#[local] Hint Resolve silent_ret silent_lift silent_draw silent_draw_result
  silent_if : silent.
#[local] Hint Extern 2 (silent (_ ≫= _)) =>
  apply silent_bind; [|intros ?] : silent.

Lemma sample_distance_silent test_tds expl scale our_method i :
  silent (sample_distance test_tds expl scale our_method i).
Proof. unfold sample_distance. auto 20 with silent. Qed.

Lemma foldM_silent {S A} (body : S → A → M world S) :
  (∀ s a, silent (body s a)) → ∀ l s, silent (foldM body l s).
Proof. intros Hbody l s w. now apply (foldM_preserves trace). Qed.

Lemma after_emit_trace {A} e (m : M world A) w :
  silent m → trace ((emit e ≫= λ _, m) w).2 = trace w ++ [e].
Proof. intros Hm. unfold mbind, M_bind, emit. now rewrite Hm. Qed.

Lemma eval_stability_2_trace test_tds expl scale our_method w :
  trace (eval_stability_2 test_tds expl scale our_method w).2
  = trace w ++ [Tqdm 10000].
Proof.
  unfold eval_stability_2. apply after_emit_trace, foldM_silent.
  intros s a. apply silent_bind; [apply sample_distance_silent|].
  intros d. apply silent_ret.
Qed.

Lemma eval_stability_2_Forall2 test_tds expl scale our_method w distances w' :
  eval_stability_2 test_tds expl scale our_method w = (Ok distances, w') →
  Forall2 (recorded test_tds expl scale our_method) (range 10000) distances.
Proof.
  unfold eval_stability_2. generalize (range 10000). intros l H.
  apply M_bind_Ok in H as ([] & w1 & _ & H).
  revert H.
  apply (foldM_Ok_inv _
           (λ done ds _, Forall2 (recorded test_tds expl scale our_method) done ds));
    [|constructor].
  intros done ds w0 i ds' w2 IH Hbody.
  apply M_bind_Ok in Hbody as (d & w3 & Hd & Hret).
  apply M_ret_Ok in Hret as [-> ->].
  apply sample_distance_Ok in Hd as [Hrec _].
  apply Forall2_app; [done|]. now constructor.
Qed.

Lemma Forall2_range_getitem {A} (R : Z → A → Prop) n (l : list A) :
  Forall2 R (range n) l →
  length l = Z.to_nat n ∧
  ∀ i, 0 ≤ i < n → ∃ a, getitem l i = Ok a ∧ R i a.
Proof.
  intros HF. split.
  - rewrite <- (Forall2_length _ _ _ HF). apply range_length.
  - intros i Hi.
    destruct (Forall2_lookup_l _ _ _ _ _ HF (range_lookup n i Hi)) as (a & Hl & HR).
    exists a. split; [|done]. apply getitem_lookup; [lia|done].
Qed.

Lemma elem_of_range n i : i ∈ range n → 0 ≤ i < n.
Proof.
  intros Hin. apply list_elem_of_lookup in Hin as [j Hj].
  now apply range_lookup_inv in Hj.
Qed.

Lemma after_emit_total {A} e (m : M world A) :
  (∀ w, ∃ a w', m w = (Ok a, w')) →
  ∀ w, ∃ a w', (emit e ≫= λ _, m) w = (Ok a, w').
Proof. intros Hm w. unfold mbind, M_bind, emit. apply Hm. Qed.

(** The loop ends, and it returns when the evaluation of every sample
    returns. *)
Lemma eval_stability_2_total test_tds expl scale our_method :
  (∀ i w, 0 ≤ i < 10000 →
     ∃ d w', sample_distance test_tds expl scale our_method i w = (Ok d, w')) →
  ∀ w, ∃ distances w',
    eval_stability_2 test_tds expl scale our_method w = (Ok distances, w').
Proof.
  intros Hbody. unfold eval_stability_2. apply after_emit_total.
  apply foldM_total. intros ds i w0 Hin.
  destruct (Hbody i w0 (elem_of_range _ _ Hin)) as (d & w1 & Hd).
  exists (ds ++ [d]), w1. unfold mbind, M_bind. now rewrite Hd.
Qed.

(** C1: for every sample index [i] in 0..9999 and every noise scale, the
    distance the Stability Evaluator records at position [i] is
    [||deps - deps_noise||_2], where [deps] is [theta(x) (.) h(x)] when the
    variant flag is true and [theta(x)] otherwise, and [deps_noise] is
    computed by the same rule at the noise tensor alone, which is [scale]
    times a [torch.randn] tensor of the size of [x]; [x] does not enter it. *)
Theorem eval_stability_2_distance test_tds expl scale our_method w distances w' :
  eval_stability_2 test_tds expl scale our_method w = (Ok distances, w') →
  ∀ i, 0 ≤ i < 10000 →
  ∃ sample x g d,
    getitem (dataset test_tds) i = Ok sample ∧
    view_1_1_28_28 sample.1 = Ok x ∧
    spec_distance expl our_method x
      (scale_mul scale (torch_randn (tensor_size x) g).1) = Ok d ∧
    getitem distances i = Ok d.
Proof.
  intros Hrun i Hi.
  apply eval_stability_2_Forall2 in Hrun.
  destruct (Forall2_lookup_l _ _ _ _ _ Hrun (range_lookup 10000 i Hi))
    as (d & Hd & (sample & x & g & Hs & Hx & Hdist)).
  exists sample, x, g, d. repeat split; try done.
  apply getitem_lookup; [lia|done].
Qed.



(** C5: for every noise scale and either variant flag, the sequence the
    Stability Evaluator returns has exactly 10000 elements, and the element
    at position [i] is present and is the distance recorded for test sample
    [i]. *)
Theorem eval_stability_2_length test_tds expl scale our_method w distances w' :
  eval_stability_2 test_tds expl scale our_method w = (Ok distances, w') →
  len distances = 10000 ∧
  ∀ i, 0 ≤ i < 10000 →
    ∃ d, getitem distances i = Ok d ∧
         recorded test_tds expl scale our_method i d.
Proof.
  intros Hrun.
  apply eval_stability_2_Forall2, Forall2_range_getitem in Hrun as [Hlen Hall].
  split; [|exact Hall]. unfold len. rewrite Hlen. lia.
Qed.

(** ** Counting events *)

Lemma count_app p (t t' : list event) : count p (t ++ t') = (count p t + count p t')%nat.
Proof. unfold count. now rewrite List.filter_app, length_app. Qed.

Lemma count_replicate_tqdm n total :
  count is_tqdm (replicate n (Tqdm total)) = n ∧
  count is_hist (replicate n (Tqdm total)) = 0%nat.
Proof.
  unfold count. induction n as [|n [IH1 IH2]]; [done|].
  simpl. now rewrite IH1, IH2.
Qed.

(** ** [plot_distribution_h] *)

Lemma collect_value_silent test_tds expl plot_type values i :
  silent (collect_value test_tds expl plot_type values i).
Proof. unfold collect_value. auto 20 with silent. Qed.

Lemma collect_value_Ok test_tds expl plot_type values i w values' w' :
  plot_type ∈ ["h(x)"; "theta(x)"; "theta(x)h(x)"] →
  collect_value test_tds expl plot_type values i w = (Ok values', w') →
  ∃ a, collected test_tds expl plot_type i a ∧ values' = values ++ [a].
Proof.
  intros Hty H. unfold collect_value in H.
  apply M_bind_Ok in H as (sample & w1 & Hs & H). apply lift_Ok in Hs as [Hs ->].
  apply M_bind_Ok in H as (x & w1 & Hx & H). apply lift_Ok in Hx as [Hx ->].
  unfold collected, spec_quantity.
  destruct (String.eqb plot_type "h(x)") eqn:E1;
    [|destruct (String.eqb plot_type "theta(x)") eqn:E2;
      [|destruct (String.eqb plot_type "theta(x)h(x)") eqn:E3]].
  - run_inv H. eauto 10.
  - run_inv H. eauto 10.
  - run_inv H. eexists. split; [|done]. exists sample, x.
    repeat split; try done. rewrite Hrun, Hrun0. simpl. done.
  - apply String.eqb_neq in E1, E2, E3.
    repeat (apply elem_of_cons in Hty as [->|Hty]); try done.
    by apply elem_of_nil in Hty.
Qed.

(** The straight-line part of a run that returns: the loop returned the
    collected arrays, and the calls that follow show them. *)
Lemma plot_distribution_h_Ok test_tds expl plot_type w u w' :
  plot_distribution_h test_tds expl plot_type w = (Ok u, w') →
  plot_type ∈ ["h(x)"; "theta(x)"; "theta(x)h(x)"] ∧
  ∃ arrays w2 color xtitle ytitle,
    foldM (collect_value test_tds expl plot_type) (range 10000) []
          {| rng := rng w; trace := trace w ++ [Tqdm 10000] |}
    = (Ok arrays, w2) ∧
    trace w' = trace w ++
      [ Tqdm 10000;
        Print [PyStr "len values"; PyInt (len (concat (map array_iter arrays)))];
        PltHist (concat (map array_iter arrays)) color "#CCE6FF" 20;
        PltXlabel xtitle; PltYlabel ytitle; PltShow ].
Proof.
  unfold plot_distribution_h. generalize (range 10000). intros l H.
  apply M_bind_Ok in H as ([] & w1 & He & H). apply emit_Ok in He as ->.
  apply M_bind_Ok in H as (arrays & w2 & Hloop & H).
  assert (Hty : plot_type ∈ ["h(x)"; "theta(x)"; "theta(x)h(x)"]).
  { revert H.
    destruct (String.eqb plot_type "h(x)") eqn:E1;
      [apply String.eqb_eq in E1; set_solver|].
    destruct (String.eqb plot_type "theta(x)") eqn:E2;
      [apply String.eqb_eq in E2; set_solver|].
    destruct (String.eqb plot_type "theta(x)h(x)") eqn:E3;
      [apply String.eqb_eq in E3; set_solver|].
    intros H. exfalso. cbv beta iota in H.
    apply M_bind_Ok in H as ([] & w3 & _ & H).
    apply M_bind_Ok in H as (c & w4 & Hc & _).
    apply lift_Ok in Hc as [Hc _]. discriminate Hc. }
  split; [exact Hty|].
  assert (Htr : trace w2 = trace w ++ [Tqdm 10000]).
  { pose proof (foldM_silent _ (collect_value_silent test_tds expl plot_type)
                  l [] {| rng := rng w; trace := trace w ++ [Tqdm 10000] |})
      as Hp.
    now rewrite Hloop in Hp. }
  destruct (if String.eqb plot_type "h(x)" then _ else _)
    as [[xtitle ytitle] plot_color] in H.
  run_inv H.
  destruct plot_color as [color|]; [|discriminate].
  destruct xtitle as [xt|]; [|discriminate].
  destruct ytitle as [yt|]; [|discriminate].
  simpl in *. simplify_eq.
  exists arrays, w2. do 3 eexists. split; [done|].
  rewrite Htr, <- !app_assoc. reflexivity.
Qed.

Lemma plot_distribution_h_counts test_tds expl plot_type w u w' :
  plot_distribution_h test_tds expl plot_type w = (Ok u, w') →
  count is_hist (trace w') = (count is_hist (trace w) + 1)%nat ∧
  count is_tqdm (trace w') = (count is_tqdm (trace w) + 1)%nat.
Proof.
  intros H. apply plot_distribution_h_Ok in H
    as (_ & arrays & w2 & color & xt & yt & _ & ->).
  now rewrite !count_app.
Qed.

(** C7: the histogram operation goes over the first 10000 test points,
    takes for each the quantity [plot_type] selects (h(x), theta(x) or their
    element-wise product), pools the items of all these vectors into one
    collection and hands it to a histogram of 20 bins. *)
Theorem plot_distribution_h_pooled test_tds expl plot_type w u w' :
  plot_distribution_h test_tds expl plot_type w = (Ok u, w') →
  plot_type ∈ ["h(x)"; "theta(x)"; "theta(x)h(x)"] ∧
  ∃ arrays color xtitle ytitle,
    Forall2 (collected test_tds expl plot_type) (range 10000) arrays ∧
    let pooled := concat (map array_iter arrays) in
    trace w' = trace w ++
      [ Tqdm 10000; Print [PyStr "len values"; PyInt (len pooled)];
        PltHist pooled color "#CCE6FF" 20;
        PltXlabel xtitle; PltYlabel ytitle; PltShow ].
Proof.
  intros H. apply plot_distribution_h_Ok in H
    as (Hty & arrays & w2 & color & xt & yt & Hloop & Htrace).
  split; [exact Hty|].
  exists arrays, color, xt, yt. split; [|exact Htrace].
  revert Hloop. generalize (range 10000). intros l.
  apply (foldM_Ok_inv _
           (λ done vs _, Forall2 (collected test_tds expl plot_type) done vs));
    [|constructor].
  intros done vs w0 i vs' w3 IH Hbody.
  apply collect_value_Ok in Hbody as (a & Ha & ->); [|exact Hty].
  apply Forall2_app; [exact IH|]. now constructor.
Qed.

(** ** [load_mnist_data] *)

(** The split is taken from the index order [0, 1, ...] as [range] built
    it: the validation loader samples from the first [split] indices, the
    training loader from the others, the test loader from all of its set.
    Neither [shuffle] nor [random_seed] enters. *)
Lemma load_mnist_data_split valid_size shuffle random_seed batch_size num_workers split :
  int_floor (valid_size * float_of_Z (len mnist_train))%float = Ok split →
  loader_indices valid_size shuffle random_seed batch_size num_workers
  = Ok (Some (slice_from (range (len mnist_train)) split),
        Some (slice_to (range (len mnist_train)) split),
        None).
Proof.
  intros Hsplit. unfold loader_indices, load_mnist_data.
  rewrite Hsplit. reflexivity.
Qed.

Lemma load_mnist_data_test_whole valid_size shuffle random_seed batch_size num_workers
    train_loader valid_loader test_loader train test :
  load_mnist_data valid_size shuffle random_seed batch_size num_workers
  = Ok (train_loader, valid_loader, test_loader, train, test) →
  dataset test_loader = mnist_test ∧ sampler test_loader = None ∧
  dataset train_loader = mnist_train ∧ dataset valid_loader = mnist_train.
Proof.
  unfold load_mnist_data. intros H.
  apply result_bind_Ok in H as (split & _ & H). now simplify_eq.
Qed.

(** ** The trainer dispatch *)

Lemma global_name_bound n : n ∈ module_globals → global_name n = Ok ().
Proof. intros Hin. unfold global_name. now rewrite bool_decide_eq_true_2. Qed.

Lemma vanilla_bound : global_name "VanillaClassTrainer" = Ok ().
Proof. now vm_compute. Qed.

Lemma grad_penalty_bound : global_name "GradPenaltyTrainer" = Ok ().
Proof. now vm_compute. Qed.

Lemma cl_penalty_unbound :
  global_name "CLPenaltyTrainer" = Raise (NameError "CLPenaltyTrainer").
Proof. now vm_compute. Qed.

(** The values of [theta_reg_type] the dispatch constructs a trainer for. *)
Lemma select_trainer_constructs (model : Model) args :
  select_trainer model (with_theta_reg_type args None)
    = Ok (VanillaClassTrainer model (with_theta_reg_type args None)) ∧
  (∀ s, s ∈ ["unreg"; "none"] →
     select_trainer model (with_theta_reg_type args (Some s))
     = Ok (VanillaClassTrainer model (with_theta_reg_type args (Some s)))) ∧
  (∀ s typ, (s, typ) ∈ [("grad1", 1); ("grad2", 2); ("grad3", 3)] →
     select_trainer model (with_theta_reg_type args (Some s))
     = Ok (GradPenaltyTrainer model (with_theta_reg_type args (Some s)) typ)).
Proof.
  unfold select_trainer. simpl. rewrite vanilla_bound, grad_penalty_bound.
  split; [done|]. split.
  - intros s Hs. repeat (apply elem_of_cons in Hs as [->|Hs]); try done.
    by apply elem_of_nil in Hs.
  - intros s typ Hs.
    repeat (apply elem_of_cons in Hs as [[= -> ->]|Hs]); try done.
    by apply elem_of_nil in Hs.
Qed.

(** Any other string than the six the dispatch compares with raises the
    [ValueError]. *)
Lemma select_trainer_unrecognized (model : Model) args s :
  s ∉ ["unreg"; "none"; "grad1"; "grad2"; "grad3"; "crosslip"] →
  select_trainer model (with_theta_reg_type args (Some s))
  = Raise (ValueError "Unrecoginzed theta_reg_type").
Proof.
  intros Hs. unfold select_trainer. simpl.
  repeat match goal with
  | |- context [String.eqb s ?c] =>
      let E := fresh "E" in
      destruct (String.eqb s c) eqn:E;
      [apply String.eqb_eq in E; subst s; exfalso; apply Hs; set_solver|]
  end.
  reflexivity.
Qed.

(** C3: the dispatch on [theta_reg_type] does not construct a trainer for
    "crosslip".  The script names [CLPenaltyTrainer] there, which it never
    imports, so this value raises [NameError] whatever the model and the
    other arguments are. *)
Theorem select_trainer_crosslip (model : Model) args :
  select_trainer model (with_theta_reg_type args (Some "crosslip"))
  = Raise (NameError "CLPenaltyTrainer").
Proof.
  unfold select_trainer. simpl. now rewrite cl_penalty_unbound.
Qed.

(** ** Training or loading *)

Lemma torch_load_Ok path w checkpoint w' :
  torch_load path w = (Ok checkpoint, w') →
  files !! path = Some checkpoint ∧
  w' = {| rng := rng w; trace := trace w ++ [TorchLoad path] |}.
Proof.
  unfold torch_load. intros H. run_inv H.
  destruct (files !! path); now simplify_eq.
Qed.

Lemma checkpoint_getitem_Ok checkpoint key (m : Model) :
  checkpoint_getitem checkpoint key = Ok m → checkpoint !! key = Some m.
Proof. unfold checkpoint_getitem. destruct (checkpoint !! key); congruence. Qed.

Lemma load_existing_Ok args model_path model w model' w' :
  load_existing args model_path model w = (Ok model', w') →
  rng w' = rng w ∧
  if load_model args then
    ∃ checkpoint,
      files !! path_join model_path "model_best.pth.tar" = Some checkpoint ∧
      checkpoint !! "model" = Some model' ∧
      trace w' = trace w ++ [TorchLoad (path_join model_path "model_best.pth.tar")]
  else model' = model ∧ trace w' = trace w.
Proof.
  unfold load_existing. destruct (load_model args); intros H.
  - apply M_bind_Ok in H as (checkpoint & w1 & Hload & H).
    apply torch_load_Ok in Hload as [Hfile ->].
    apply lift_Ok in H as [Hget ->]. apply checkpoint_getitem_Ok in Hget.
    split; [done|]. now exists checkpoint.
  - now apply M_ret_Ok in H as [-> ->].
Qed.

Lemma train_or_load_Ok args model_path results_path train_loader valid_loader
    (model : Model) t w model' t' w' :
  train_or_load args model_path results_path train_loader valid_loader model t w
  = (Ok (model', t'), w') →
  if negb (load_model args) && train args then
    t' = t ∧
    trainer_train t train_loader valid_loader (epochs args) model_path (rng w)
    = (Ok model', rng w') ∧
    trace w' = trace w ++ [Train t (epochs args) model_path;
                           PlotLosses t results_path]
  else
    ∃ checkpoint,
      files !! path_join model_path "model_best.pth.tar" = Some checkpoint ∧
      checkpoint !! "model" = Some model' ∧
      t' = VanillaClassTrainer model' args ∧
      rng w' = rng w ∧
      trace w' = trace w ++ [TorchLoad (path_join model_path "model_best.pth.tar")].
Proof.
  unfold train_or_load. destruct (negb (load_model args) && train args); intros H.
  - apply M_bind_Ok in H as ([] & w1 & He & H). apply emit_Ok in He as ->.
    apply M_bind_Ok in H as (m1 & w1 & Htrain & H).
    unfold draw_result in Htrain. simpl in Htrain.
    destruct (trainer_train _ _ _ _ _ _) as [r g] eqn:Etrain.
    run_inv H. apply M_ret_Ok in H as [[= <- <-] ->]. simplify_eq. simpl.
    repeat split; try done. now rewrite <- app_assoc.
  - apply M_bind_Ok in H as (checkpoint & w1 & Hload & H).
    apply torch_load_Ok in Hload as [Hfile ->].
    apply M_bind_Ok in H as (m1 & w1 & Hget & H).
    apply lift_Ok in Hget as [Hget ->]. apply checkpoint_getitem_Ok in Hget.
    apply M_bind_Ok in H as ([] & w1 & Hname & H).
    apply lift_Ok in Hname as [_ ->].
    apply M_ret_Ok in H as [[= <- <-] ->].
    exists checkpoint. repeat split; assumption || reflexivity.
Qed.

(** [parse_args] always returns: it prints the parameters and gives the
    namespace of the command line. *)
Lemma parameter_lines_run items w :
  foldM (λ _ '(attr, value), emit (parameter_line attr value)) items () w
  = (Ok (),
     {| rng := rng w;
        trace := trace w ++ map (λ item, parameter_line item.1 item.2) items |}).
Proof.
  revert w. induction items as [|[attr value] items IH]; intros w.
  - cbn. rewrite app_nil_r. now destruct w.
  - cbn [foldM map]. unfold mbind, M_bind at 1. cbn [emit fst snd].
    rewrite IH. cbn [rng trace]. now rewrite <- app_assoc.
Qed.

Lemma parse_args_run w :
  parse_args w
  = (Ok parser_parse_args,
     {| rng := rng w; trace := trace w ++ parse_args_output |}).
Proof.
  unfold parse_args, parse_args_output.
  generalize (sorted (map_to_list args_dict)). intros items.
  unfold mbind, M_bind at 1. cbn [emit fst snd].
  unfold mbind, M_bind at 1. rewrite parameter_lines_run. cbn [fst snd rng trace].
  unfold mret, M_ret. now rewrite <- app_assoc.
Qed.

Lemma parse_args_output_counts :
  count is_hist parse_args_output = 0%nat ∧
  count is_tqdm parse_args_output = 0%nat.
Proof.
  unfold parse_args_output.
  generalize (sorted (map_to_list args_dict)). intros items.
  split; cbn; induction items as [|item items IH]; cbn in *; lia.
Qed.

(** The statements of a run of lines 194-249 that returns, after the
    model is built. *)
Lemma main_setup_Ok w s w' :
  main_setup w = (Ok s, w') →
  (load_model (s_args s) = load_model parser_parse_args ∧
   train (s_args s) = train parser_parse_args ∧
   theta_reg_type (s_args s) = theta_reg_type parser_parse_args) ∧
  ∃ built w1 model0 w2 selected valid_loader,
    trace w1 = trace w ++ parse_args_output ∧
    load_existing (s_args s) (s_model_path s) built w1 = (Ok model0, w2) ∧
    select_trainer model0 (s_args s) = Ok selected ∧
    train_or_load (s_args s) (s_model_path s) (s_results_path s)
                  (s_train_loader s) valid_loader model0 selected w2
    = (Ok (s_model s, s_trainer s), w').
Proof.
  unfold main_setup. intros H.
  apply M_bind_Ok in H as (parsed & w0 & Hparse & H).
  rewrite parse_args_run in Hparse. injection Hparse as <- <-.
  destruct (generate_dir_names _ _) as [[model_path log_path] results_path].
  apply M_bind_Ok in H as ([[[[trl vl] tel] trd] ted] & w1 & Hdata & H).
  apply lift_Ok in Hdata as [Hdata ->].
  set (args0 := set_theta_dim _ _) in *.
  destruct (if String.eqb (h_type args0) "input" then _ else _)
    as [conceptizer args] eqn:Eh in H.
  assert (Hargs : load_model args = load_model parser_parse_args ∧
                  train args = train parser_parse_args ∧
                  theta_reg_type args = theta_reg_type parser_parse_args).
  { destruct (String.eqb (h_type args0) "input");
      [|destruct (String.eqb (h_type args0) "cnn")]; now simplify_eq. }
  apply M_bind_Ok in H as (m0 & w1 & Hnew & H).
  apply draw_Ok in Hnew as [_ Htr1].
  apply M_bind_Ok in H as (m1 & w2 & Hload & H).
  apply M_bind_Ok in H as (t & w3 & Hsel & H).
  apply lift_Ok in Hsel as [Hsel ->].
  apply M_bind_Ok in H as ([m2 t2] & w3 & Htl & H).
  apply M_ret_Ok in H as [-> ->]. cbn [s_args s_model_path s_results_path
    s_train_loader s_model s_trainer].
  split; [exact Hargs|]. now exists m0, w1, m1, w2, t, vl.
Qed.

(** Setting up draws no histogram and no progress bar. *)
Lemma main_setup_counts w s w' :
  main_setup w = (Ok s, w') →
  count is_hist (trace w') = count is_hist (trace w) ∧
  count is_tqdm (trace w') = count is_tqdm (trace w).
Proof.
  intros H. apply main_setup_Ok in H
    as (_ & built & w1 & model0 & w2 & selected & vl & Htr1 & Hload & _ & Htl).
  apply load_existing_Ok in Hload as [_ Hload].
  apply train_or_load_Ok in Htl.
  destruct parse_args_output_counts as [Hph Hpt].
  assert (count is_hist (trace w2) = count is_hist (trace w) ∧
          count is_tqdm (trace w2) = count is_tqdm (trace w)) as [Hh Ht].
  { destruct (load_model (s_args s)).
    - destruct Hload as (c & _ & _ & ->).
      rewrite !count_app, Htr1, !count_app, Hph, Hpt. split; cbn; lia.
    - destruct Hload as [_ ->]. rewrite Htr1, !count_app, Hph, Hpt. lia. }
  destruct (negb (load_model (s_args s)) && train (s_args s)).
  - destruct Htl as (_ & _ & ->). rewrite !count_app, Hh, Ht. split; cbn; lia.
  - destruct Htl as (c & _ & _ & _ & _ & ->). rewrite !count_app, Hh, Ht. split; cbn; lia.
Qed.

(** C10: unless [load_model] is false and [train] is true, [main] loads
    [model_best.pth.tar] from the model path, and both the model and the
    trainer it goes on with come from that checkpoint: the trainer is a
    [VanillaClassTrainer], whatever [theta_reg_type] selected before.  The
    file is loaded twice when [load_model] is true (once otherwise).  The
    selected trainer is the one in use only when training runs.  Up to
    line 249 the run shows the parameters [parse_args] prints, and after
    them these loads, or the training, and nothing else. *)
Theorem main_setup_trainer w s w' :
  main_setup w = (Ok s, w') →
  let path := path_join (s_model_path s) "model_best.pth.tar" in
  (load_model (s_args s) = load_model parser_parse_args ∧
   train (s_args s) = train parser_parse_args ∧
   theta_reg_type (s_args s) = theta_reg_type parser_parse_args) ∧
  ∃ model0 selected,
    select_trainer model0 (s_args s) = Ok selected ∧
    if negb (load_model (s_args s)) && train (s_args s) then
      s_trainer s = selected ∧
      trace w' = trace w ++ parse_args_output ++
        [ Train selected (epochs (s_args s)) (s_model_path s);
          PlotLosses selected (s_results_path s) ]
    else
      ∃ checkpoint,
        files !! path = Some checkpoint ∧
        checkpoint !! "model" = Some (s_model s) ∧
        s_trainer s = VanillaClassTrainer (s_model s) (s_args s) ∧
        trace w' = trace w ++ parse_args_output ++
          replicate (if load_model (s_args s) then 2 else 1) (TorchLoad path).
Proof.
  intros H. apply main_setup_Ok in H
    as (Hargs & built & w1 & model0 & w2 & selected & vl & Htr1 & Hload & Hsel & Htl).
  cbv zeta. split; [exact Hargs|]. exists model0, selected. split; [exact Hsel|].
  apply load_existing_Ok in Hload as [_ Hload].
  apply train_or_load_Ok in Htl.
  destruct (load_model (s_args s)) eqn:Elm; cbn [negb andb] in *.
  - destruct Hload as (c1 & Hc1 & Hm1 & Htr2).
    destruct Htl as (c2 & Hc2 & Hm2 & Ht & _ & Htr3).
    exists c2. repeat split; try done.
    rewrite Htr3, Htr2, Htr1. now rewrite <- !app_assoc.
  - destruct Hload as [-> Htr2].
    destruct (train (s_args s)).
    + destruct Htl as (-> & _ & Htr3). split; [done|].
      rewrite Htr3, Htr2, Htr1. now rewrite <- !app_assoc.
    + destruct Htl as (c2 & Hc2 & Hm2 & Ht & _ & Htr3).
      exists c2. repeat split; try done.
      rewrite Htr3, Htr2, Htr1. now rewrite <- !app_assoc.
Qed.

(** ** Dictionaries *)

Lemma distinct_keys_snoc ks k :
  distinct_keys (ks ++ [k]) = true →
  distinct_keys ks = true ∧ (k =? k)%float = true ∧
  Forall (λ k', (k' =? k)%float = false) ks.
Proof.
  induction ks as [|k0 ks IH]; simpl.
  - rewrite !andb_true_r. intros ->. repeat split. constructor.
  - rewrite forallb_app. simpl. rewrite !andb_true_r.
    intros H. apply andb_true_iff in H as [H Hrest].
    apply andb_true_iff in H as [Hk0 Hall].
    apply andb_true_iff in Hall as [Hall Hneg].
    destruct (IH Hrest) as (Hd & Hk & Hfresh).
    rewrite Hk0, Hall, Hd. repeat split; try done.
    constructor; [|done]. now apply negb_true_iff.
Qed.

Lemma dict_set_fresh {V} (d : dict V) k v :
  Forall (λ k', (k' =? k)%float = false) (dict_keys d) →
  dict_set d k v = d ++ [(k, v)].
Proof.
  induction d as [|[k0 v0] d IH]; simpl; [done|].
  intros H. apply Forall_cons in H as [Hk H]. simpl in Hk.
  now rewrite Hk, IH.
Qed.

Lemma dict_get_snoc_new {V} (d : dict V) k v :
  Forall (λ k', (k' =? k)%float = false) (dict_keys d) →
  (k =? k)%float = true →
  dict_get (d ++ [(k, v)]) k = Ok v.
Proof.
  intros H Hk. induction d as [|[k0 v0] d IH]; simpl.
  - now rewrite Hk.
  - apply Forall_cons in H as [Hk0 H]. simpl in Hk0. rewrite Hk0. now apply IH.
Qed.

Lemma dict_get_snoc_old {V} (d e : dict V) k v :
  dict_get d k = Ok v → dict_get (d ++ e) k = Ok v.
Proof.
  induction d as [|[k0 v0] d IH]; simpl; [discriminate|].
  destruct (k0 =? k)%float; [done|apply IH].
Qed.

Lemma dict_keys_snoc {V} (d : dict V) k v :
  dict_keys (d ++ [(k, v)]) = dict_keys d ++ [k].
Proof. unfold dict_keys. now rewrite map_app. Qed.

(** ** The noise sweep *)

Lemma eval_stability_2_Ok_trace test_tds expl scale our_method w distances w' :
  eval_stability_2 test_tds expl scale our_method w = (Ok distances, w') →
  trace w' = trace w ++ [Tqdm 10000] ∧ len distances = 10000.
Proof.
  intros H. split.
  - pose proof (eval_stability_2_trace test_tds expl scale our_method w) as Ht.
    now rewrite H in Ht.
  - apply eval_stability_2_Forall2, Forall2_range_getitem in H as [Hlen _].
    unfold len. rewrite Hlen. lia.
Qed.

Lemma noise_sweep_Ok test_tds expl noises w d d2 w' :
  distinct_keys noises = true →
  noise_sweep test_tds expl noises w = (Ok (d, d2), w') →
  dict_keys d = noises ∧ dict_keys d2 = noises ∧
  Forall (swept test_tds expl d d2) noises ∧
  trace w' = trace w ++ replicate (2 * length noises) (Tqdm 10000).
Proof.
  intros Hdistinct Hrun. revert Hdistinct. unfold noise_sweep in Hrun.
  revert Hrun.
  apply (foldM_Ok_inv _
    (λ done (s : dict (list Scalar) * dict (list Scalar)) w1,
       distinct_keys done = true →
       dict_keys s.1 = done ∧ dict_keys s.2 = done ∧
       Forall (swept test_tds expl s.1 s.2) done ∧
       trace w1 = trace w ++ replicate (2 * length done) (Tqdm 10000))).
  - intros done [e e2] w1 k [e' e2'] w2 IH Hbody Hdistinct.
    apply distinct_keys_snoc in Hdistinct as (Hdone & Hk & Hfresh).
    destruct (IH Hdone) as (Hkeys & Hkeys2 & Hswept & Htrace).
    cbn [fst snd] in *.
    apply M_bind_Ok in Hbody as (ds & w3 & Hraw & Hbody).
    apply M_bind_Ok in Hbody as (ds2 & w4 & Hours & Hbody).
    apply M_ret_Ok in Hbody as [[= -> ->] ->].
    rewrite !dict_set_fresh by now rewrite ?Hkeys, ?Hkeys2.
    rewrite !dict_keys_snoc, Hkeys, Hkeys2.
    destruct (eval_stability_2_Ok_trace _ _ _ _ _ _ _ Hraw) as [Ht3 Hlen].
    destruct (eval_stability_2_Ok_trace _ _ _ _ _ _ _ Hours) as [Ht4 Hlen2].
    repeat split; try done.
    + apply Forall_app. split.
      * eapply Forall_impl; [exact Hswept|].
        intros k0 (a & a2 & u1 & u2 & u3 & H1 & H2 & H3 & H4 & H5 & H6).
        exists a, a2, u1, u2, u3. repeat split; try done;
          now apply dict_get_snoc_old.
      * constructor; [|constructor].
        exists ds, ds2, w1, w3, w4. repeat split; try done;
          apply dict_get_snoc_new; try done; now rewrite ?Hkeys, ?Hkeys2.
    + rewrite Ht4, Ht3, Htrace, length_app. cbn [length].
      replace (2 * (length done + 1))%nat with (2 * length done + 2)%nat by lia.
      rewrite replicate_add, <- !app_assoc. reflexivity.
  - intros _. cbn. repeat split; try done. now rewrite app_nil_r.
Qed.

(** C6: the sweep runs the Stability Evaluator twice per scale, first on
    the raw variant and then on the combined one, and leaves two
    dictionaries whose keys are the swept scales in order, each scale
    mapped to what its run returned, a sequence of 10000 distances.  This
    holds for any scales that are pairwise different, such as the
    increasing 0.00, 0.02, ..., 0.20 of [main] or [0.0, 0.1], which give 11
    and 2 keys. *)
Theorem noise_sweep_result test_tds expl noises w d d2 w' :
  distinct_keys noises = true →
  noise_sweep test_tds expl noises w = (Ok (d, d2), w') →
  dict_keys d = noises ∧ dict_keys d2 = noises ∧
  (∀ k, k ∈ noises →
     ∃ ds ds2,
       dict_get d k = Ok ds ∧ dict_get d2 k = Ok ds2 ∧
       len ds = 10000 ∧ len ds2 = 10000 ∧
       ∃ w1 w2 w3,
         eval_stability_2 test_tds expl k false w1 = (Ok ds, w2) ∧
         eval_stability_2 test_tds expl k true w2 = (Ok ds2, w3)) ∧
  trace w' = trace w ++ replicate (2 * length noises) (Tqdm 10000).
Proof.
  intros Hdistinct Hrun.
  destruct (noise_sweep_Ok _ _ _ _ _ _ _ Hdistinct Hrun)
    as (Hkeys & Hkeys2 & Hswept & Htrace).
  repeat split; try done.
  intros k Hk. rewrite Forall_forall in Hswept.
  destruct (Hswept k Hk) as (ds & ds2 & w1 & w2 & w3 & H1 & H2 & H3 & H4 & H5 & H6).
  exists ds, ds2. repeat split; try done. now exists w1, w2, w3.
Qed.

(** The scales [main] sweeps: eleven, increasing, pairwise different. *)
Lemma np_arange_sweep_scales :
  np_arange 0 0.21 0.02 = Ok sweep_scales ∧
  length sweep_scales = 11%nat ∧
  increasing sweep_scales = true ∧ distinct_keys sweep_scales = true.
Proof. repeat split; now vm_compute. Qed.

Lemma distinct_keys_0_01 : distinct_keys [0; 0.1]%float = true.
Proof. now vm_compute. Qed.


(** ** The evaluation part of [main] *)

Lemma emit_counts e w u w' :
  emit e w = (Ok u, w') →
  count is_hist (trace w') = (count is_hist (trace w) + count is_hist [e])%nat ∧
  count is_tqdm (trace w') = (count is_tqdm (trace w) + count is_tqdm [e])%nat.
Proof. intros H. apply emit_Ok in H as ->. cbn [trace]. now rewrite !count_app. Qed.

(** A run of lines 252-288 that returns shows three histograms and sweeps
    the eleven scales. *)
Lemma main_evaluation_Ok s w d d2 noises w' :
  main_evaluation s w = (Ok (d, d2, noises), w') →
  noises = sweep_scales ∧
  dict_keys d = noises ∧ dict_keys d2 = noises ∧
  Forall (swept (s_test_loader s) (main_explainer s) d d2) noises ∧
  count is_hist (trace w') = (count is_hist (trace w) + 3)%nat ∧
  count is_tqdm (trace w') = (count is_tqdm (trace w) + 25)%nat.
Proof.
  unfold main_evaluation. intros H.
  apply M_bind_Ok in H as ([] & w1 & He1 & H). apply emit_counts in He1 as [Hh1 Ht1].
  cbv zeta in H.
  apply M_bind_Ok in H as ([] & w2 & He2 & H). apply emit_counts in He2 as [Hh2 Ht2].
  apply M_bind_Ok in H as ([] & w3 & Hp1 & H).
  apply plot_distribution_h_counts in Hp1 as [Hh3 Ht3].
  apply M_bind_Ok in H as ([] & w4 & Hp2 & H).
  apply plot_distribution_h_counts in Hp2 as [Hh4 Ht4].
  apply M_bind_Ok in H as ([] & w5 & Hp3 & H).
  apply plot_distribution_h_counts in Hp3 as [Hh5 Ht5].
  apply M_bind_Ok in H as (ns & w6 & Hns & H).
  apply lift_Ok in Hns as [Hns ->].
  destruct np_arange_sweep_scales as (Harange & Hlen & _ & Hdistinct).
  rewrite Harange in Hns. injection Hns as <-.
  apply M_bind_Ok in H as ([e e2] & w6 & Hsweep & H).
  apply M_ret_Ok in H as [[= -> -> ->] ->].
  apply (noise_sweep_Ok _ _ _ _ _ _ _ Hdistinct) in Hsweep
    as (Hk & Hk2 & Hswept & Htrace).
  repeat split; try done.
  - rewrite Htrace, count_app, (proj2 (count_replicate_tqdm _ _)).
    rewrite Hh5, Hh4, Hh3, Hh2, Hh1. cbn. lia.
  - rewrite Htrace, count_app, (proj1 (count_replicate_tqdm _ _)), Hlen.
    rewrite Ht5, Ht4, Ht3, Ht2, Ht1. cbn. lia.
Qed.

Lemma main_Ok w r w' :
  main w = (Ok r, w') →
  ∃ s w1, main_setup w = (Ok s, w1) ∧ main_evaluation s w1 = (Ok r, w').
Proof. unfold main. apply M_bind_Ok. Qed.

(** One invocation of [main] that returns: three histograms, twenty-five
    progress bars (three of the histograms, twenty-two of the sweep), and
    both dictionaries keyed by the eleven scales. *)
Lemma main_counts w d d2 noises w' :
  main w = (Ok (d, d2, noises), w') →
  noises = sweep_scales ∧ dict_keys d = noises ∧ dict_keys d2 = noises ∧
  (∀ k, k ∈ noises → ∃ ds ds2, dict_get d k = Ok ds ∧ dict_get d2 k = Ok ds2) ∧
  count is_hist (trace w') = (count is_hist (trace w) + 3)%nat ∧
  count is_tqdm (trace w') = (count is_tqdm (trace w) + 25)%nat.
Proof.
  intros H. apply main_Ok in H as (s & w1 & Hsetup & Heval).
  apply main_setup_counts in Hsetup as [Hh Ht].
  apply main_evaluation_Ok in Heval as (Hn & Hk & Hk2 & Hswept & Hh2 & Ht2).
  repeat split; try done; [|lia..].
  intros k Hin. rewrite Forall_forall in Hswept.
  destruct (Hswept k Hin) as (ds & ds2 & _ & _ & _ & _ & _ & Hd & Hd2 & _).
  now exists ds, ds2.
Qed.

(** ** Aggregation *)

Lemma result_mapM_Ok {A B} (f : A → result B) l bs :
  result_mapM f l = Ok bs → Forall2 (λ a b, f a = Ok b) l bs.
Proof.
  revert bs. induction l as [|a l IH]; simpl; intros bs H.
  - injection H as <-. constructor.
  - apply result_bind_Ok in H as (b & Hb & H).
    apply result_bind_Ok in H as (bs' & Hbs & H). injection H as <-.
    constructor; [done|]. now apply IH.
Qed.

Lemma result_mapM_total {A B} (f : A → result B) l :
  Forall (λ a, ∃ b, f a = Ok b) l → ∃ bs, result_mapM f l = Ok bs.
Proof.
  induction 1 as [|a l [b Hb] _ [bs IH]]; simpl; [eauto|].
  rewrite Hb. simpl. rewrite IH. simpl. eauto.
Qed.

Lemma per_scale_Ok f (d : dict (list Scalar)) noises l :
  per_scale f d noises = Ok l →
  Forall2 (λ k m, ∃ ds, dict_get d k = Ok ds ∧ m = f ds) noises l.
Proof.
  unfold per_scale. intros H. apply result_mapM_Ok in H.
  eapply Forall2_impl; [exact H|]. simpl. intros k m Hk.
  apply result_bind_Ok in Hk as (ds & Hds & Hm). injection Hm as <-. eauto.
Qed.

(** [[op(a[i], b[i]) for i in range(len(a))]] is the element-wise pairing,
    which needs [b] to be at least as long as [a]. *)
Lemma pointwise_Ok op (a b c : list Scalar) :
  pointwise op a b = Ok c → c = zip_with op a b ∧ (length a ≤ length b)%nat.
Proof.
  unfold pointwise. intros H. apply result_mapM_Ok in H.
  assert (Hall : ∀ i, 0 ≤ i < len a →
            ∃ x y z, a !! Z.to_nat i = Some x ∧ b !! Z.to_nat i = Some y ∧
                     c !! Z.to_nat i = Some z ∧ z = op x y).
  { intros i Hi.
    destruct (Forall2_lookup_l _ _ _ _ _ H (range_lookup _ i Hi)) as (z & Hz & Hop).
    apply result_bind_Ok in Hop as (x & Hx & Hop).
    apply result_bind_Ok in Hop as (y & Hy & Hop). injection Hop as <-.
    apply getitem_Ok_nonneg in Hx, Hy; [|lia..]. eauto 10. }
  pose proof (Forall2_length _ _ _ H) as Hlen. rewrite range_length in Hlen.
  unfold len in *. rewrite Nat2Z.id in Hlen.
  assert (Hab : (length a ≤ length b)%nat).
  { destruct (decide (length a = 0)%nat) as [E|E]; [lia|].
    destruct (Hall (Z.of_nat (length a - 1)) ltac:(lia)) as (x & y & z & _ & Hy & _).
    rewrite Nat2Z.id in Hy. apply lookup_lt_Some in Hy. lia. }
  split; [|exact Hab].
  apply list_eq. intros j. rewrite lookup_zip_with.
  destruct (decide (j < length a)%nat) as [Hj|Hj].
  - destruct (Hall (Z.of_nat j) ltac:(lia)) as (x & y & z & Hx & Hy & Hz & ->).
    rewrite Nat2Z.id in Hx, Hy, Hz. rewrite Hz, Hx. simpl. now rewrite Hy.
  - rewrite (lookup_ge_None_2 c), (lookup_ge_None_2 a) by lia. done.
Qed.

Lemma aggregate_Ok (d : dict (list Scalar)) noises b :
  aggregate d noises = Ok b →
  Forall2 (λ k m, ∃ ds, dict_get d k = Ok ds ∧ m = np_mean ds) noises (b_means b) ∧
  Forall2 (λ k sd, ∃ ds, dict_get d k = Ok ds ∧ sd = np_std ds) noises (b_stds b) ∧
  b_min b = zip_with scalar_sub (b_means b) (b_stds b) ∧
  b_max b = zip_with scalar_add (b_means b) (b_stds b).
Proof.
  unfold aggregate. intros H.
  apply result_bind_Ok in H as (means & Hm & H).
  apply result_bind_Ok in H as (stds & Hs & H).
  apply result_bind_Ok in H as (mn & Hmn & H).
  apply result_bind_Ok in H as (mx & Hmx & H). injection H as <-. simpl.
  apply per_scale_Ok in Hm, Hs.
  apply pointwise_Ok in Hmn as [-> _], Hmx as [-> _]. done.
Qed.

(** C8: for each variant and each swept scale, the aggregation takes the
    mean and the standard deviation of the distance sequence stored for
    that scale; on the constant sequence [5, 5, 5, 5] numpy's mean is 5 and
    its standard deviation is 0. *)
Theorem aggregate_mean_std (d : dict (list Scalar)) noises b :
  aggregate d noises = Ok b →
  (∀ i k, noises !! i = Some k →
     ∃ ds, dict_get d k = Ok ds ∧
           b_means b !! i = Some (np_mean ds) ∧
           b_stds b !! i = Some (np_std ds)) ∧
  (@np_mean numpy_f64 [5; 5; 5; 5] = 5 ∧
   @np_std numpy_f64 [5; 5; 5; 5] = 0)%float.
Proof.
  intros H. apply aggregate_Ok in H as (Hmeans & Hstds & _ & _).
  split; [|split; now vm_compute].
  intros i k Hk.
  destruct (Forall2_lookup_l _ _ _ _ _ Hmeans Hk) as (m & Hm & ds & Hds & ->).
  destruct (Forall2_lookup_l _ _ _ _ _ Hstds Hk) as (sd & Hsd & ds' & Hds' & ->).
  rewrite Hds in Hds'. injection Hds' as <-. now exists ds.
Qed.

(** ** The [__main__] block *)

Lemma emit_trace e w u w' : emit e w = (Ok u, w') → trace w' = trace w ++ [e].
Proof. intros H. now apply emit_Ok in H as ->. Qed.

(** C9: run as a script, the file invokes [main] twice in succession.  Each
    invocation runs the whole pipeline (three histograms, and the sweep of
    the eleven scales on both variants: twenty-five progress bars), what
    the first returns is dropped, and the figure is drawn from the
    dictionaries of the second alone. *)
Theorem script_runs_main_twice w u w' :
  script w = (Ok u, w') →
  ∃ r1 w1 d d2 noises w2 b b2,
    main w = (Ok r1, w1) ∧
    main w1 = (Ok (d, d2, noises), w2) ∧
    aggregate d noises = Ok b ∧ aggregate d2 noises = Ok b2 ∧
    trace w' = trace w2 ++ figure noises b b2 ∧
    noises = sweep_scales ∧ dict_keys d = noises ∧ dict_keys d2 = noises ∧
    count is_hist (trace w1) = (count is_hist (trace w) + 3)%nat ∧
    count is_tqdm (trace w1) = (count is_tqdm (trace w) + 25)%nat ∧
    count is_hist (trace w') = (count is_hist (trace w) + 6)%nat ∧
    count is_tqdm (trace w') = (count is_tqdm (trace w) + 50)%nat.
Proof.
  unfold script. intros H.
  apply M_bind_Ok in H as ([[d0 d02] noises0] & w1 & Hfirst & H).
  apply M_bind_Ok in H as ([[d d2] noises] & w2 & Hsecond & H).
  apply M_bind_Ok in H as (b & w3 & Hb & H). apply lift_Ok in Hb as [Hb ->].
  apply M_bind_Ok in H as (b2 & w3 & Hb2 & H). apply lift_Ok in Hb2 as [Hb2 ->].
  assert (Hfig : trace w' = trace w2 ++ figure noises b b2).
  { unfold figure.
    repeat (apply M_bind_Ok in H as ([] & ? & He & H);
            apply emit_Ok in He as ->; cbn [trace rng] in H).
    apply emit_Ok in H as ->. cbn [trace]. now rewrite <- !app_assoc. }
  destruct (main_counts _ _ _ _ _ Hfirst) as (_ & _ & _ & _ & Hh1 & Ht1).
  destruct (main_counts _ _ _ _ _ Hsecond) as (Hn & Hk & Hk2 & _ & Hh2 & Ht2).
  exists (d0, d02, noises0), w1, d, d2, noises, w2, b, b2.
  repeat split; try done.
  - rewrite Hfig, count_app, Hh2, Hh1. cbn. lia.
  - rewrite Hfig, count_app, Ht2, Ht1. cbn. lia.
Qed.

End Properties.

(* ===================================================================== *)
(** * When the script returns *)
(* ===================================================================== *)

Lemma bind_total {W A B} (m : M W A) (k : A → M W B) :
  (∀ w, ∃ a w', m w = (Ok a, w')) →
  (∀ a w, ∃ b w', k a w = (Ok b, w')) →
  ∀ w, ∃ b w', (m ≫= k) w = (Ok b, w').
Proof.
  intros Hm Hk w. destruct (Hm w) as (a & w1 & Ha).
  destruct (Hk a w1) as (b & w2 & Hb).
  exists b, w2. unfold mbind, M_bind. now rewrite Ha.
Qed.

Section Totality.
Context {TL : TorchLib} {NL : NumPyLib} {SL : SennLib} {host : Host}.

Implicit Types (w : world) (expl : explainer Model Tensor)
  (test_tds : DataLoader Tensor).

Lemma plot_distribution_h_total test_tds expl plot_type :
  plot_type ∈ ["h(x)"; "theta(x)"; "theta(x)h(x)"] →
  (∀ values i w, 0 ≤ i < 10000 →
     ∃ values' w',
       collect_value test_tds expl plot_type values i w = (Ok values', w')) →
  ∀ w, ∃ u w', plot_distribution_h test_tds expl plot_type w = (Ok u, w').
Proof.
  intros Hty Hbody. unfold plot_distribution_h.
  apply after_emit_total, bind_total.
  - apply foldM_total. intros values i w Hin.
    apply Hbody. now apply elem_of_range.
  - intros values w.
    repeat (apply elem_of_cons in Hty as [->|Hty]);
      [..|by apply elem_of_nil in Hty]; do 2 eexists; reflexivity.
Qed.

Lemma noise_sweep_total test_tds expl :
  (∀ k our_method w,
     ∃ ds w', eval_stability_2 test_tds expl k our_method w = (Ok ds, w')) →
  ∀ noises w, ∃ r w', noise_sweep test_tds expl noises w = (Ok r, w').
Proof.
  intros Heval noises. unfold noise_sweep. apply foldM_total.
  intros [d d2] k w _.
  destruct (Heval k false w) as (ds & w1 & H1).
  destruct (Heval k true w1) as (ds2 & w2 & H2).
  do 2 eexists. unfold mbind, M_bind. rewrite H1, H2. reflexivity.
Qed.

Lemma main_evaluation_total s :
  (∀ plot_type w, plot_type ∈ ["h(x)"; "theta(x)"; "theta(x)h(x)"] →
     ∃ u w', plot_distribution_h (s_test_loader s) (main_explainer s)
                                 plot_type w = (Ok u, w')) →
  (∀ k our_method w,
     ∃ ds w', eval_stability_2 (s_test_loader s) (main_explainer s)
                               k our_method w = (Ok ds, w')) →
  ∀ w, ∃ r w', main_evaluation s w = (Ok r, w').
Proof.
  intros Hplot Heval. unfold main_evaluation.
  apply after_emit_total. cbv zeta. apply after_emit_total.
  apply bind_total; [intros w; apply Hplot; set_solver|intros _].
  apply bind_total; [intros w; apply Hplot; set_solver|intros _].
  apply bind_total; [intros w; apply Hplot; set_solver|intros _].
  destruct np_arange_sweep_scales as (-> & _).
  apply bind_total; [intros w; unfold lift; eauto|intros noises].
  apply bind_total; [now apply noise_sweep_total|].
  intros [d d2] w. do 2 eexists. reflexivity.
Qed.

Lemma pointwise_total op (a b : list Scalar) :
  (length a ≤ length b)%nat → ∃ c, pointwise op a b = Ok c.
Proof.
  intros Hab. unfold pointwise. apply result_mapM_total.
  apply Forall_forall. intros i Hi. apply elem_of_range in Hi. unfold len in Hi.
  destruct (lookup_lt_is_Some_2 a (Z.to_nat i)) as [x Hx]; [lia|].
  destruct (lookup_lt_is_Some_2 b (Z.to_nat i)) as [y Hy]; [lia|].
  exists (op x y).
  rewrite (getitem_lookup a i x), (getitem_lookup b i y) by (done || lia).
  reflexivity.
Qed.

Lemma aggregate_total (d : dict (list Scalar)) noises :
  (∀ k, k ∈ noises → ∃ ds, dict_get d k = Ok ds) →
  ∃ b, aggregate d noises = Ok b.
Proof.
  intros Hkeys. unfold aggregate.
  assert (Hper : ∀ f, ∃ l, per_scale f d noises = Ok l ∧ length l = length noises).
  { intros f. destruct (result_mapM_total
      (λ noise, ds ← dict_get d noise; Ok (f ds)) noises) as [l Hl].
    - apply Forall_forall. intros k Hk. destruct (Hkeys k Hk) as [ds Hds].
      exists (f ds). now rewrite Hds.
    - exists l. split; [exact Hl|].
      apply result_mapM_Ok, Forall2_length in Hl. done. }
  destruct (Hper np_mean) as (means & -> & Hlm).
  destruct (Hper np_std) as (stds & -> & Hls).
  destruct (pointwise_total scalar_sub means stds ltac:(lia)) as [mn Hmn].
  destruct (pointwise_total scalar_add means stds ltac:(lia)) as [mx Hmx].
  simpl. rewrite Hmn. simpl. rewrite Hmx. simpl. eauto.
Qed.

(** The script returns when [main] does. *)
Lemma script_total :
  (∀ w, ∃ r w', main w = (Ok r, w')) →
  ∀ w, ∃ u w', script w = (Ok u, w').
Proof.
  intros Hmain w.
  destruct (Hmain w) as (r1 & w1 & H1).
  destruct (Hmain w1) as ([[d d2] noises] & w2 & H2).
  destruct (main_counts _ _ _ _ _ H2) as (_ & _ & _ & Hget & _).
  destruct (aggregate_total d noises) as [b Hb].
  { intros k Hk. destruct (Hget k Hk) as (ds & _ & Hds & _). eauto. }
  destruct (aggregate_total d2 noises) as [b2 Hb2].
  { intros k Hk. destruct (Hget k Hk) as (_ & ds2 & _ & Hds2). eauto. }
  unfold script, mbind, M_bind, lift. rewrite H1, H2, Hb, Hb2.
  do 2 eexists. reflexivity.
Qed.

End Totality.

(* ===================================================================== *)
(** * The script on the small instance *)
(* ===================================================================== *)

Lemma toy_getitem i : 0 ≤ i < 10000 → getitem toy_test_set i = Ok toy_sample.
Proof. intros Hi. unfold toy_test_set. apply getitem_replicate. lia. Qed.


Lemma toy_sample_distance_total (test_tds : DataLoader Tensor)
    (expl : explainer Model Tensor) scale our_method i w :
  dataset test_tds = toy_test_set → 0 ≤ i < 10000 →
  ∃ d w', sample_distance test_tds expl scale our_method i w = (Ok d, w').
Proof.
  intros Hds Hi. unfold sample_distance. rewrite Hds, toy_getitem by done.
  destruct our_method; do 2 eexists; reflexivity.
Qed.

Lemma toy_eval_total (test_tds : DataLoader Tensor)
    (expl : explainer Model Tensor) scale our_method w :
  dataset test_tds = toy_test_set →
  ∃ distances w',
    eval_stability_2 test_tds expl scale our_method w = (Ok distances, w').
Proof.
  intros Hds. apply eval_stability_2_total.
  intros i w0 Hi. now apply toy_sample_distance_total.
Qed.

Lemma toy_collect_value_total (test_tds : DataLoader Tensor)
    (expl : explainer Model Tensor) plot_type values i w :
  dataset test_tds = toy_test_set → 0 ≤ i < 10000 →
  plot_type ∈ ["h(x)"; "theta(x)"; "theta(x)h(x)"] →
  ∃ values' w',
    collect_value test_tds expl plot_type values i w = (Ok values', w').
Proof.
  intros Hds Hi Hty. unfold collect_value. rewrite Hds, toy_getitem by done.
  repeat (apply elem_of_cons in Hty as [->|Hty]);
    [..|by apply elem_of_nil in Hty]; do 2 eexists; reflexivity.
Qed.

Lemma toy_plot_total (test_tds : DataLoader Tensor)
    (expl : explainer Model Tensor) plot_type w :
  dataset test_tds = toy_test_set →
  plot_type ∈ ["h(x)"; "theta(x)"; "theta(x)h(x)"] →
  ∃ u w', plot_distribution_h test_tds expl plot_type w = (Ok u, w').
Proof.
  intros Hds Hty. apply plot_distribution_h_total; [done|].
  intros values i w0 Hi. now apply toy_collect_value_total.
Qed.

Lemma toy_noise_sweep_total noises w :
  ∃ r w', noise_sweep toy_loader toy_expl noises w = (Ok r, w').
Proof.
  apply noise_sweep_total. intros k our_method w0. now apply toy_eval_total.
Qed.

(** What [parse_args] prints on the toy host. *)
Lemma toy_parse_args_output test_set :
  parse_args_output (host := toy_host_with test_set)
  = [Print [PyStr (String "010"%char "Parameters:")];
     parameter_line "h_type" "cnn"; parameter_line "lip_calls" "10";
     parameter_line "optim" "gp"].
Proof. vm_compute. reflexivity. Qed.

(** On the toy host, setting up prints the parameters, loads the checkpoint
    twice and returns. *)
Lemma toy_main_setup_eq test_set (w : world) :
  @main_setup _ _ _ (toy_host_with test_set) w
  = (Ok (toy_setup test_set),
     {| rng := rng w + 1;
        trace := ((trace w
                   ++ [Print [PyStr (String "010"%char "Parameters:")];
                       parameter_line "h_type" "cnn";
                       parameter_line "lip_calls" "10";
                       parameter_line "optim" "gp"])
                  ++ [TorchLoad toy_checkpoint_path])
                 ++ [TorchLoad toy_checkpoint_path] |}).
Proof.
  unfold main_setup. unfold mbind at 1. unfold M_bind at 1.
  rewrite parse_args_run, toy_parse_args_output.
  vm_compute. reflexivity.
Qed.

Lemma toy_main_setup_total (w : world) :
  ∃ s w', main_setup w = (Ok s, w') ∧ dataset (s_test_loader s) = toy_test_set.
Proof.
  eexists _, _. split; [apply toy_main_setup_eq|reflexivity].
Qed.

Lemma toy_main_total (w : world) : ∃ r w', main w = (Ok r, w').
Proof.
  destruct (toy_main_setup_total w) as (s & w1 & Hs & Hds).
  destruct (main_evaluation_total s) with (w := w1) as (r & w2 & Hr).
  - intros plot_type w0 Hty. now apply toy_plot_total.
  - intros k our_method w0. now apply toy_eval_total.
  - exists r, w2. unfold main, mbind, M_bind. now rewrite Hs.
Qed.

Lemma toy_script_total (w : world) : ∃ u w', script w = (Ok u, w').
Proof. apply script_total. intros w0. apply toy_main_total. Qed.

(** ** The claims on the small instance *)

(** The evaluator, run on the toy test set with scale 0.1 and the combined
    variant, returns, and the first distance is as C1 states. *)
Lemma eval_stability_2_distance_witness :
  ∃ distances w',
    eval_stability_2 toy_loader toy_expl 0.1 true toy_world = (Ok distances, w') ∧
    ∃ sample x g d,
      getitem (dataset toy_loader) 0 = Ok sample ∧
      view_1_1_28_28 sample.1 = Ok x ∧
      spec_distance toy_expl true x
        (scale_mul 0.1 (torch_randn (tensor_size x) g).1) = Ok d ∧
      getitem distances 0 = Ok d.
Proof.
  destruct (toy_eval_total toy_loader toy_expl 0.1 true toy_world eq_refl)
    as (distances & w' & H).
  exists distances, w'. split; [exact H|].
  apply (eval_stability_2_distance _ _ _ _ _ _ _ H 0). lia.
Defined.


Lemma eval_stability_2_length_witness :
  ∃ distances w',
    eval_stability_2 toy_loader toy_expl 0.1 false toy_world = (Ok distances, w') ∧
    len distances = 10000 ∧
    ∀ i, 0 ≤ i < 10000 →
      ∃ d, getitem distances i = Ok d ∧ recorded toy_loader toy_expl 0.1 false i d.
Proof.
  destruct (toy_eval_total toy_loader toy_expl 0.1 false toy_world eq_refl)
    as (distances & w' & H).
  exists distances, w'. split; [exact H|].
  exact (eval_stability_2_length _ _ _ _ _ _ _ H).
Defined.

Lemma plot_distribution_h_pooled_witness :
  ∃ u w',
    plot_distribution_h toy_loader toy_expl "theta(x)" toy_world = (Ok u, w') ∧
    ("theta(x)" ∈ ["h(x)"; "theta(x)"; "theta(x)h(x)"] ∧
     ∃ arrays color xtitle ytitle,
       Forall2 (collected toy_loader toy_expl "theta(x)") (range 10000) arrays ∧
       let pooled := concat (map array_iter arrays) in
       trace w' = trace toy_world ++
         [ Tqdm 10000; Print [PyStr "len values"; PyInt (len pooled)];
           PltHist pooled color "#CCE6FF" 20;
           PltXlabel xtitle; PltYlabel ytitle; PltShow ]).
Proof.
  destruct (toy_plot_total toy_loader toy_expl "theta(x)" toy_world eq_refl)
    as (u & w' & H); [set_solver|].
  exists u, w'. split; [exact H|].
  exact (plot_distribution_h_pooled _ _ _ _ _ _ H).
Defined.

(** The sweep over the two scales [0.0, 0.1]: two keys per variant, each
    with 10000 distances. *)
Lemma noise_sweep_result_witness :
  ∃ d d2 w',
    noise_sweep toy_loader toy_expl [0; 0.1]%float toy_world = (Ok (d, d2), w') ∧
    length (dict_keys d) = 2%nat ∧ length (dict_keys d2) = 2%nat ∧
    (dict_keys d = [0; 0.1]%float ∧ dict_keys d2 = [0; 0.1]%float ∧
     (∀ k, k ∈ [0; 0.1]%float →
        ∃ ds ds2,
          dict_get d k = Ok ds ∧ dict_get d2 k = Ok ds2 ∧
          len ds = 10000 ∧ len ds2 = 10000 ∧
          ∃ w1 w2 w3,
            eval_stability_2 toy_loader toy_expl k false w1 = (Ok ds, w2) ∧
            eval_stability_2 toy_loader toy_expl k true w2 = (Ok ds2, w3)) ∧
     trace w' = trace toy_world ++ replicate 4 (Tqdm 10000)).
Proof.
  destruct (toy_noise_sweep_total [0; 0.1]%float toy_world) as ([d d2] & w' & H).
  exists d, d2, w'. split; [exact H|].
  pose proof (noise_sweep_result _ _ _ _ _ _ _ distinct_keys_0_01 H) as Hres.
  split; [|split; [|exact Hres]].
  - now rewrite (proj1 Hres).
  - now rewrite (proj1 (proj2 Hres)).
Defined.

(** One scale whose stored sequence is [5, 5, 5, 5]: mean 5, deviation 0. *)
Lemma aggregate_mean_std_witness :
  let d := [(0.1%float, [5; 5; 5; 5]%float)] in
  let b := {| b_means := [5%float]; b_stds := [0%float];
              b_min := [5%float]; b_max := [5%float] |} in
  @aggregate numpy_f64 d [0.1%float] = Ok b ∧
  ((∀ i k, [0.1%float] !! i = Some k →
      ∃ ds, dict_get d k = Ok ds ∧
            b_means b !! i = Some (@np_mean numpy_f64 ds) ∧
            b_stds b !! i = Some (@np_std numpy_f64 ds)) ∧
   (@np_mean numpy_f64 [5; 5; 5; 5] = 5 ∧
    @np_std numpy_f64 [5; 5; 5; 5] = 0)%float).
Proof.
  intros d b.
  assert (H : @aggregate numpy_f64 d [0.1%float] = Ok b) by now vm_compute.
  split; [exact H|]. exact (aggregate_mean_std d [0.1%float] b H).
Defined.

(** The toy command line asks to load a model ([load_model] is true, with
    [theta_reg_type] "grad3"): the checkpoint is read twice and the trainer
    in use is the [VanillaClassTrainer]. *)
Lemma main_setup_trainer_witness :
  ∃ s w',
    main_setup toy_world = (Ok s, w') ∧
    let path := path_join (s_model_path s) "model_best.pth.tar" in
    (load_model (s_args s) = load_model parser_parse_args ∧
     train (s_args s) = train parser_parse_args ∧
     theta_reg_type (s_args s) = theta_reg_type parser_parse_args) ∧
    ∃ model0 selected,
      select_trainer model0 (s_args s) = Ok selected ∧
      if negb (load_model (s_args s)) && train (s_args s) then
        s_trainer s = selected ∧
        trace w' = trace toy_world ++ parse_args_output ++
          [ Train selected (epochs (s_args s)) (s_model_path s);
            PlotLosses selected (s_results_path s) ]
      else
        ∃ checkpoint,
          files !! path = Some checkpoint ∧
          checkpoint !! "model" = Some (s_model s) ∧
          s_trainer s = VanillaClassTrainer (s_model s) (s_args s) ∧
          trace w' = trace toy_world ++ parse_args_output ++
            replicate (if load_model (s_args s) then 2 else 1) (TorchLoad path).
Proof.
  eexists _, _. split; [apply toy_main_setup_eq|].
  exact (main_setup_trainer _ _ _ (toy_main_setup_eq toy_test_set toy_world)).
Defined.

(** The script on the toy host returns, after two invocations of [main]. *)
Lemma script_runs_main_twice_witness :
  ∃ u w',
    script toy_world = (Ok u, w') ∧
    ∃ r1 w1 d d2 noises w2 b b2,
      main toy_world = (Ok r1, w1) ∧
      main w1 = (Ok (d, d2, noises), w2) ∧
      aggregate d noises = Ok b ∧ aggregate d2 noises = Ok b2 ∧
      trace w' = trace w2 ++ figure noises b b2 ∧
      noises = sweep_scales ∧ dict_keys d = noises ∧ dict_keys d2 = noises ∧
      count is_hist (trace w1) = (count is_hist (trace toy_world) + 3)%nat ∧
      count is_tqdm (trace w1) = (count is_tqdm (trace toy_world) + 25)%nat ∧
      count is_hist (trace w') = (count is_hist (trace toy_world) + 6)%nat ∧
      count is_tqdm (trace w') = (count is_tqdm (trace toy_world) + 50)%nat.
Proof.
  destruct (toy_script_total toy_world) as (u & w' & H).
  exists u, w'. split; [exact H|].
  exact (script_runs_main_twice _ _ _ H).
Defined.

(** C4: [load_mnist_data] does not split the shuffled index order.  On the
    toy host (ten training images, a shuffle that reverses, the defaults
    [valid_size = 0.1], [shuffle = True], [random_seed = 2008]) the
    validation loader samples from index 0 and the training loader from
    1..9, the same as with [shuffle = False], whereas the first tenth of the
    shuffled order is index 9.  The slices are taken before the shuffle,
    which then acts on a list nothing reads.  The test loader has no
    sampler. *)
Theorem load_mnist_data_split_ignores_shuffle :
  loader_indices 0.1 true 2008 64 1
  = Ok (Some [1; 2; 3; 4; 5; 6; 7; 8; 9], Some [0], None) ∧
  loader_indices 0.1 true 2008 64 1 = loader_indices 0.1 false 2008 64 1 ∧
  spec_split 0.1 true 2008 = Ok ([8; 7; 6; 5; 4; 3; 2; 1; 0], [9]).
Proof.
  assert (Hsplit : int_floor (0.1 * float_of_Z (len mnist_train))%float = Ok 1)
    by now vm_compute.
  pose proof (λ shuffle, load_mnist_data_split (host := toy_host)
                0.1%float shuffle 2008 64 1 1 Hsplit) as Hcode.
  split; [|split].
  - rewrite Hcode. now vm_compute.
  - now rewrite !Hcode.
  - unfold spec_split. rewrite Hsplit. now vm_compute.
Qed.

(* ===================================================================== *)
(** * Further properties of the script *)
(* ===================================================================== *)

Section MoreProperties.
Context {TL : TorchLib} {NL : NumPyLib} {SL : SennLib} {host : Host}.

Implicit Types (w : world) (expl : explainer Model Tensor)
  (test_tds : DataLoader Tensor).

(** ** The trainer dispatch, completely *)

Lemma select_trainer_Ok_inv (model : Model) args t :
  select_trainer model args = Ok t →
  (theta_reg_type args ∈ [None; Some "unreg"; Some "none"] ∧
   t = VanillaClassTrainer model args) ∨
  (∃ typ, (theta_reg_type args, typ)
            ∈ [(Some "grad1", 1); (Some "grad2", 2); (Some "grad3", 3)] ∧
          t = GradPenaltyTrainer model args typ).
Proof.
  unfold select_trainer. destruct (theta_reg_type args) as [s|].
  - destruct (String.eqb s "unreg") eqn:E1.
    { apply String.eqb_eq in E1 as ->. simpl. rewrite vanilla_bound.
      intros [= <-]. left. split; [set_solver|done]. }
    destruct (String.eqb s "none") eqn:E2.
    { apply String.eqb_eq in E2 as ->. simpl. rewrite vanilla_bound.
      intros [= <-]. left. split; [set_solver|done]. }
    cbn [orb].
    destruct (String.eqb s "grad1") eqn:E3.
    { apply String.eqb_eq in E3 as ->. rewrite grad_penalty_bound.
      intros [= <-]. right. exists 1. split; [set_solver|done]. }
    destruct (String.eqb s "grad2") eqn:E4.
    { apply String.eqb_eq in E4 as ->. rewrite grad_penalty_bound.
      intros [= <-]. right. exists 2. split; [set_solver|done]. }
    destruct (String.eqb s "grad3") eqn:E5.
    { apply String.eqb_eq in E5 as ->. rewrite grad_penalty_bound.
      intros [= <-]. right. exists 3. split; [set_solver|done]. }
    destruct (String.eqb s "crosslip") eqn:E6.
    { rewrite cl_penalty_unbound. discriminate. }
    discriminate.
  - rewrite vanilla_bound. intros [= <-]. left. split; [set_solver|done].
Qed.

(** X1: the dispatch returns a trainer exactly for [None], "unreg" and
    "none" (a [VanillaClassTrainer]) and for "grad1", "grad2", "grad3" (a
    [GradPenaltyTrainer] of type 1, 2, 3), each on the given model and
    arguments; for every other value it raises. *)
Theorem select_trainer_Ok_iff (model : Model) args t :
  select_trainer model args = Ok t ↔
  (theta_reg_type args ∈ [None; Some "unreg"; Some "none"] ∧
   t = VanillaClassTrainer model args) ∨
  (∃ typ, (theta_reg_type args, typ)
            ∈ [(Some "grad1", 1); (Some "grad2", 2); (Some "grad3", 3)] ∧
          t = GradPenaltyTrainer model args typ).
Proof.
  split; [apply select_trainer_Ok_inv|].
  unfold select_trainer. intros [[Hin ->]|(typ & Hin & ->)].
  - repeat (apply elem_of_cons in Hin as [->|Hin]);
      [..|by apply elem_of_nil in Hin]; simpl; now rewrite vanilla_bound.
  - repeat (apply elem_of_cons in Hin as [[= -> ->]|Hin]);
      [..|by apply elem_of_nil in Hin]; simpl; now rewrite grad_penalty_bound.
Qed.

(** X2: [main] returns only when [theta_reg_type] is one of the six values
    the dispatch constructs a trainer for; in particular never for
    "crosslip", and this also when the selected trainer would be replaced
    by the one of the checkpoint. *)
Theorem main_returns_recognized w r w' :
  main w = (Ok r, w') →
  theta_reg_type parser_parse_args
    ∈ [None; Some "unreg"; Some "none";
       Some "grad1"; Some "grad2"; Some "grad3"].
Proof.
  intros H. apply main_Ok in H as (s & w1 & Hsetup & _).
  apply main_setup_Ok in Hsetup
    as ((_ & _ & Hty) & built & w2 & model0 & w3 & selected & vl & _ & _ & Hsel & _).
  rewrite <- Hty.
  apply select_trainer_Ok_inv in Hsel as [[Hin _]|(typ & Hin & _)].
  - set_solver.
  - repeat (apply elem_of_cons in Hin as [[= -> ->]|Hin]);
      [..|by apply elem_of_nil in Hin]; set_solver.
Qed.

(** X3: whatever the command line says, [main] goes on with [nclasses] and
    [theta_dim] set to 10; [nconcepts] becomes 784, plus one unless
    [nobias], when [h_type] is "input" and stays as given otherwise; the
    other arguments are passed on unchanged. *)
Theorem main_setup_args w s w' :
  main_setup w = (Ok s, w') →
  nclasses (s_args s) = 10 ∧ theta_dim (s_args s) = 10 ∧
  nconcepts (s_args s)
  = (if String.eqb (h_type parser_parse_args) "input"
     then 28 * 28 + (if nobias parser_parse_args then 0 else 1)
     else nconcepts parser_parse_args) ∧
  s_args s
  = set_nconcepts (set_theta_dim (set_nclasses parser_parse_args 10) 10)
                  (nconcepts (s_args s)).
Proof.
  unfold main_setup. intros H.
  apply M_bind_Ok in H as (parsed & w0 & Hparse & H).
  rewrite parse_args_run in Hparse. injection Hparse as <- <-.
  destruct (generate_dir_names _ _) as [[model_path log_path] results_path].
  apply M_bind_Ok in H as ([[[[trl vl] tel] trd] ted] & w1 & _ & H).
  set (args0 := set_theta_dim _ _) in *.
  destruct (if String.eqb (h_type args0) "input" then _ else _)
    as [conceptizer args] eqn:Eh in H.
  apply M_bind_Ok in H as (m0 & w2 & _ & H).
  apply M_bind_Ok in H as (m1 & w3 & _ & H).
  apply M_bind_Ok in H as (t & w4 & _ & H).
  apply M_bind_Ok in H as ([m2 t2] & w5 & _ & H).
  apply M_ret_Ok in H as [-> ->]. cbn [s_args].
  change (h_type args0) with (h_type parser_parse_args) in Eh.
  destruct (String.eqb (h_type parser_parse_args) "input");
    [|destruct (String.eqb (h_type parser_parse_args) "cnn")];
    injection Eh as <- <-; repeat split; try reflexivity.
  all: subst args0; now destruct parser_parse_args.
Qed.

(** ** What the loops leave alone *)

Lemma keeps_rng_ret {A} (a : A) : keeps_rng (mret a).
Proof. now intros w. Qed.

Lemma keeps_rng_lift {A} (r : result A) : keeps_rng (lift r).
Proof. now intros w. Qed.

Lemma keeps_rng_emit e : keeps_rng (emit e).
Proof. now intros w. Qed.

Lemma keeps_rng_bind {A B} (m : M world A) (k : A → M world B) :
  keeps_rng m → (∀ a, keeps_rng (k a)) → keeps_rng (m ≫= k).
Proof.
  intros Hm Hk w. unfold mbind, M_bind. specialize (Hm w).
  destruct (m w) as [[a|e] w1]; simpl in *; [|done].
  now rewrite Hk.
Qed.

Lemma keeps_rng_if {A} (b : bool) (m1 m2 : M world A) :
  keeps_rng m1 → keeps_rng m2 → keeps_rng (if b then m1 else m2).
Proof. now destruct b. Qed.

Lemma keeps_rng_foldM {S A} (body : S → A → M world S) :
  (∀ s a, keeps_rng (body s a)) → ∀ l s, keeps_rng (foldM body l s).
Proof. intros Hbody l s w. now apply (foldM_preserves rng). Qed.

Create HintDb keeps_rng.
#[local] Hint Resolve keeps_rng_ret keeps_rng_lift keeps_rng_emit
  keeps_rng_if : keeps_rng.
#[local] Hint Extern 2 (keeps_rng (_ ≫= _)) =>
  apply keeps_rng_bind; [|intros ?] : keeps_rng.

Lemma collect_value_keeps_rng test_tds expl plot_type values i :
  keeps_rng (collect_value test_tds expl plot_type values i).
Proof. unfold collect_value. auto 20 with keeps_rng. Qed.

(** X4: [plot_distribution_h] never draws from the random generator:
    whether it returns or raises, the generator is in the state it was in
    before the call, so the histograms of [main] do not change the noise
    the sweep draws afterwards. *)
Theorem plot_distribution_h_keeps_rng test_tds expl plot_type w :
  rng (plot_distribution_h test_tds expl plot_type w).2 = rng w.
Proof.
  revert w. change (keeps_rng (plot_distribution_h test_tds expl plot_type)).
  unfold plot_distribution_h. generalize (range 10000). intros l.
  apply keeps_rng_bind; [apply keeps_rng_emit|intros _].
  apply keeps_rng_bind.
  - apply keeps_rng_foldM. intros values i. apply collect_value_keeps_rng.
  - intros values.
    destruct (if String.eqb plot_type "h(x)" then _ else _)
      as [[xtitle ytitle] plot_color].
    auto 20 with keeps_rng.
Qed.

Lemma foldM_progress {S A} (body : S → A → M world S) (c : nat) :
  (∀ s a w, ∃ n, (n ≤ c)%nat ∧
              trace (body s a w).2 = trace w ++ replicate n (Tqdm 10000)) →
  ∀ l s w, ∃ n, (n ≤ c * length l)%nat ∧
             trace (foldM body l s w).2 = trace w ++ replicate n (Tqdm 10000).
Proof.
  intros Hbody l. induction l as [|a l IH]; intros s w.
  - exists 0%nat. split; [lia|]. simpl. now rewrite app_nil_r.
  - cbn [foldM]. unfold mbind, M_bind.
    destruct (Hbody s a w) as (n1 & Hn1 & H1).
    destruct (body s a w) as [[s1|e] w1]; cbn [snd] in *.
    + destruct (IH s1 w1) as (n2 & Hn2 & H2).
      exists (n1 + n2)%nat. split; [cbn [length]; lia|].
      now rewrite H2, H1, replicate_add, <- app_assoc.
    + exists n1. split; [cbn [length]; lia|done].
Qed.

(** X5: the sweep shows nothing but progress bars, at most two per scale,
    whether it returns or is ended by an exception: it never prints and
    never plots. *)
Theorem noise_sweep_trace test_tds expl noises w :
  ∃ n, (n ≤ 2 * length noises)%nat ∧
       trace (noise_sweep test_tds expl noises w).2
       = trace w ++ replicate n (Tqdm 10000).
Proof.
  unfold noise_sweep. apply foldM_progress. clear w.
  intros [d d2] k w. unfold mbind, M_bind.
  pose proof (eval_stability_2_trace test_tds expl k false w) as H1.
  destruct (eval_stability_2 test_tds expl k false w) as [[ds|e] w1];
    cbn [snd] in H1.
  - pose proof (eval_stability_2_trace test_tds expl k true w1) as H2.
    destruct (eval_stability_2 test_tds expl k true w1) as [[ds2|e] w2];
      cbn [snd] in H2.
    + exists 2%nat. split; [lia|]. cbn [snd mret M_ret].
      now rewrite H2, H1, <- app_assoc.
    + exists 2%nat. split; [lia|]. cbn [snd].
      now rewrite H2, H1, <- app_assoc.
  - exists 1%nat. split; [lia|]. cbn [snd]. exact H1.
Qed.

(** ** How the evaluator uses the generator and the test set *)

Lemma sample_distance_Ok_rng test_tds expl scale our_method i w d w' :
  sample_distance test_tds expl scale our_method i w = (Ok d, w') →
  ∃ x, sample_image test_tds i x ∧
       rng w' = (torch_randn (tensor_size x) (rng w)).2 ∧
       spec_distance expl our_method x
         (scale_mul scale (torch_randn (tensor_size x) (rng w)).1) = Ok d.
Proof.
  unfold sample_distance. intros H.
  apply M_bind_Ok in H as (sample & w1 & Hs & H). apply lift_Ok in Hs as [Hs ->].
  apply M_bind_Ok in H as (x & w1 & Hx & H). apply lift_Ok in Hx as [Hx ->].
  apply M_bind_Ok in H as (h_x & w1 & Hh & H). apply lift_Ok in Hh as [Hh ->].
  apply M_bind_Ok in H as (theta & w1 & Hth & H). apply lift_Ok in Hth as [Hth ->].
  apply M_bind_Ok in H as (deps & w1 & Hdeps & H).
  apply lift_Ok in Hdeps as [Hdeps ->].
  apply M_bind_Ok in H as (r & w1 & Hdraw & H).
  apply draw_Ok in Hdraw as [Hdraw _].
  apply M_bind_Ok in H as (h_n & w2 & Hhn & H). apply lift_Ok in Hhn as [Hhn ->].
  apply M_bind_Ok in H as (theta_n & w2 & Hthn & H).
  apply lift_Ok in Hthn as [Hthn ->].
  apply M_bind_Ok in H as (deps_n & w2 & Hdn & H). apply lift_Ok in Hdn as [Hdn ->].
  apply M_bind_Ok in H as (diff & w2 & Hdiff & H).
  apply lift_Ok in Hdiff as [Hdiff ->].
  apply M_ret_Ok in H as [-> ->].
  exists x. split; [now exists sample|]. rewrite Hdraw. cbn [fst snd].
  split; [reflexivity|].
  unfold spec_distance, spec_deps. rewrite Hth, Hthn. cbn.
  destruct our_method; cbn.
  - rewrite Hh, Hhn. cbn. rewrite Hdeps, Hdn. cbn. now rewrite Hdiff.
  - injection Hdeps as <-. injection Hdn as <-. cbn. now rewrite Hdiff.
Qed.

Lemma draw_noises_length scale xs g :
  length (draw_noises scale xs g).1 = length xs.
Proof.
  revert g. induction xs as [|x xs IH]; intros g; [done|]. cbn [draw_noises].
  destruct (torch_randn (tensor_size x) g) as [r g1]. specialize (IH g1).
  destruct (draw_noises scale xs g1) as [noises g2]. cbn in *. now rewrite IH.
Qed.

Lemma draw_noises_snoc scale xs x g :
  draw_noises scale (xs ++ [x]) g
  = (let '(noises, g1) := draw_noises scale xs g in
     let '(r, g2) := torch_randn (tensor_size x) g1 in
     (noises ++ [scale_mul scale r], g2)).
Proof.
  revert g. induction xs as [|x0 xs IH]; intros g; cbn [draw_noises app].
  - now destruct (torch_randn (tensor_size x) g).
  - destruct (torch_randn (tensor_size x0) g) as [r0 g1]. rewrite IH.
    destruct (draw_noises scale xs g1) as [noises g2].
    now destruct (torch_randn (tensor_size x) g2).
Qed.

(** X6: a run of the evaluator that returns has drawn exactly one noise
    tensor per sample, in sample order, each of the size of its image, and
    nothing else has touched the generator: the state it leaves is the one
    after these 10000 draws, and the distance at each position is the one
    between the image and the noise drawn for it. *)
Theorem eval_stability_2_draws test_tds expl scale our_method w distances w' :
  eval_stability_2 test_tds expl scale our_method w = (Ok distances, w') →
  ∃ xs,
    Forall2 (sample_image test_tds) (range 10000) xs ∧
    rng w' = (draw_noises scale xs (rng w)).2 ∧
    Forall2 (λ xn d, spec_distance expl our_method xn.1 xn.2 = Ok d)
            (zip xs (draw_noises scale xs (rng w)).1) distances.
Proof.
  unfold eval_stability_2. generalize (range 10000). intros l H.
  apply M_bind_Ok in H as ([] & w1 & He & H). apply emit_Ok in He as ->.
  revert H.
  apply (foldM_Ok_inv _
    (λ done ds w1, ∃ xs,
       Forall2 (sample_image test_tds) done xs ∧
       rng w1 = (draw_noises scale xs (rng w)).2 ∧
       Forall2 (λ xn d, spec_distance expl our_method xn.1 xn.2 = Ok d)
               (zip xs (draw_noises scale xs (rng w)).1) ds)).
  - intros done ds w1 i ds' w2 (xs & Himg & Hrng & Hds) Hbody.
    apply M_bind_Ok in Hbody as (d & w3 & Hd & Hret).
    apply M_ret_Ok in Hret as [-> ->].
    apply sample_distance_Ok_rng in Hd as (x & Hx & Hrng' & Hdist).
    exists (xs ++ [x]). rewrite draw_noises_snoc.
    pose proof (draw_noises_length scale xs (rng w)) as Hlen.
    destruct (draw_noises scale xs (rng w)) as [noises g1]. cbn [fst snd] in *.
    subst g1. destruct (torch_randn (tensor_size x) (rng w1)) as [r g2].
    cbn [fst snd] in *. repeat split.
    + apply Forall2_app; [done|]. now constructor.
    + done.
    + rewrite (zip_with_app pair xs [x] noises [scale_mul scale r])
        by (symmetry; exact Hlen).
      apply Forall2_app; [done|]. now constructor.
  - exists []. repeat split; constructor.
Qed.

Lemma getitem_take {A} (l : list A) n i :
  0 ≤ i < Z.of_nat n → getitem (take n l) i = getitem l i.
Proof.
  intros Hi. unfold getitem.
  destruct (i <? 0) eqn:E; [lia|]. rewrite E.
  now rewrite lookup_take_lt by lia.
Qed.

Lemma foldM_ext {W S A} (body body' : S → A → M W S) l :
  (∀ s a (u : W), a ∈ l → body s a u = body' s a u) →
  ∀ s (u : W), foldM body l s u = foldM body' l s u.
Proof.
  induction l as [|a l IH]; intros Hext s u; [done|].
  cbn [foldM]. unfold mbind, M_bind. rewrite Hext by set_solver.
  destruct (body' s a u) as [[s1|e] u1]; [|done].
  apply IH. intros s0 a0 u0 Hin. apply Hext. set_solver.
Qed.

Lemma bind_ext_l {W A B} (m m' : M W A) (k : A → M W B) :
  (∀ u : W, m u = m' u) → ∀ u : W, (m ≫= k) u = (m' ≫= k) u.
Proof. intros Hm u. unfold mbind, M_bind. now rewrite Hm. Qed.

Lemma after_emit_ext {A} e (m m' : M world A) :
  (∀ w, m w = m' w) → ∀ w, (emit e ≫= λ _, m) w = (emit e ≫= λ _, m') w.
Proof. intros Hm w. unfold mbind, M_bind, emit. apply Hm. Qed.

(** X7: both loops read the first 10000 samples of the test set and
    nothing after them: on two test sets that agree on their first 10000
    samples the evaluator, and the histogram, do the same. *)
Theorem loops_read_first_10000 test_tds test_tds' expl scale our_method
    plot_type w :
  take (Z.to_nat 10000) (dataset test_tds)
  = take (Z.to_nat 10000) (dataset test_tds') →
  eval_stability_2 test_tds expl scale our_method w
  = eval_stability_2 test_tds' expl scale our_method w ∧
  plot_distribution_h test_tds expl plot_type w
  = plot_distribution_h test_tds' expl plot_type w.
Proof.
  intros Htake. unfold eval_stability_2, plot_distribution_h.
  assert (Hget : ∀ i, i ∈ range 10000 →
            getitem (dataset test_tds) i = getitem (dataset test_tds') i).
  { intros i Hi. apply elem_of_range in Hi.
    rewrite <- (getitem_take (dataset test_tds) (Z.to_nat 10000)) by lia.
    rewrite <- (getitem_take (dataset test_tds') (Z.to_nat 10000)) by lia.
    now rewrite Htake. }
  revert Hget. generalize (range 10000). intros l Hget. split.
  - revert w. apply after_emit_ext. apply foldM_ext. intros ds i w0 Hin.
    unfold sample_distance. now rewrite (Hget i Hin).
  - revert w. apply after_emit_ext. apply bind_ext_l. apply foldM_ext.
    intros values i w0 Hin. unfold collect_value. now rewrite (Hget i Hin).
Qed.


(** ** How the dispatch fails *)

(** X9: the dispatch raises in two ways only: [NameError] for "crosslip",
    whose trainer class the script does not import, and the [ValueError]
    "Unrecoginzed theta_reg_type" for every string that is none of the
    seven the dispatch compares with. *)
Theorem select_trainer_Raise_iff (model : Model) args e :
  select_trainer model args = Raise e ↔
  (theta_reg_type args = Some "crosslip" ∧ e = NameError "CLPenaltyTrainer") ∨
  (∃ s, theta_reg_type args = Some s ∧
        (s ∉ ["unreg"; "none"; "grad1"; "grad2"; "grad3"; "crosslip"]) ∧
        e = ValueError "Unrecoginzed theta_reg_type").
Proof.
  unfold select_trainer. destruct (theta_reg_type args) as [s|].
  - destruct (String.eqb s "unreg") eqn:E1.
    { apply String.eqb_eq in E1 as ->. simpl. rewrite vanilla_bound.
      split; [discriminate|].
      intros [[Hc _]|(s & Hs0 & Hs & _)]; [discriminate Hc|].
      injection Hs0 as <-. exfalso. apply Hs. set_solver. }
    destruct (String.eqb s "none") eqn:E2.
    { apply String.eqb_eq in E2 as ->. simpl. rewrite vanilla_bound.
      split; [discriminate|].
      intros [[Hc _]|(s & Hs0 & Hs & _)]; [discriminate Hc|].
      injection Hs0 as <-. exfalso. apply Hs. set_solver. }
    cbn [orb].
    destruct (String.eqb s "grad1") eqn:E3.
    { apply String.eqb_eq in E3 as ->. rewrite grad_penalty_bound.
      split; [discriminate|].
      intros [[Hc _]|(s & Hs0 & Hs & _)]; [discriminate Hc|].
      injection Hs0 as <-. exfalso. apply Hs. set_solver. }
    destruct (String.eqb s "grad2") eqn:E4.
    { apply String.eqb_eq in E4 as ->. rewrite grad_penalty_bound.
      split; [discriminate|].
      intros [[Hc _]|(s & Hs0 & Hs & _)]; [discriminate Hc|].
      injection Hs0 as <-. exfalso. apply Hs. set_solver. }
    destruct (String.eqb s "grad3") eqn:E5.
    { apply String.eqb_eq in E5 as ->. rewrite grad_penalty_bound.
      split; [discriminate|].
      intros [[Hc _]|(s & Hs0 & Hs & _)]; [discriminate Hc|].
      injection Hs0 as <-. exfalso. apply Hs. set_solver. }
    destruct (String.eqb s "crosslip") eqn:E6.
    { apply String.eqb_eq in E6 as ->. rewrite cl_penalty_unbound.
      split.
      - intros [= <-]. now left.
      - intros [[_ ->]|(s & Hs0 & Hs & _)]; [done|].
        injection Hs0 as <-. exfalso. apply Hs. set_solver. }
    apply String.eqb_neq in E1, E2, E3, E4, E5, E6. split.
    + intros [= <-]. right. exists s. split; [done|]. split; [|done].
      intros Hin. repeat (apply elem_of_cons in Hin as [->|Hin]); try done.
      by apply elem_of_nil in Hin.
    + intros [[Hc _]|(s' & Hs0 & _ & ->)]; [|done].
      now injection Hc as ->.
  - rewrite vanilla_bound. split; [discriminate|].
    intros [[Hc _]|(s & Hs0 & _)]; discriminate.
Qed.

(** ** The split of the training set *)

Lemma slice_to_from {A} (l : list A) k : slice_to l k ++ slice_from l k = l.
Proof. unfold slice_to, slice_from. apply take_drop. Qed.

(** X10: when [load_mnist_data] returns, the indices of the validation
    sampler followed by those of the training sampler are 0, 1, ...,
    [num_train - 1]: every training image is in exactly one of the two
    sets, whatever [valid_size] is (negative and above 1 included), and
    both loaders and the returned [train] are the whole training set. *)
Theorem load_mnist_data_partition valid_size shuffle random_seed batch_size
    num_workers train_loader valid_loader test_loader train test :
  load_mnist_data valid_size shuffle random_seed batch_size num_workers
  = Ok (train_loader, valid_loader, test_loader, train, test) →
  ∃ train_idx valid_idx,
    sampler train_loader = Some (SubsetRandomSampler train_idx) ∧
    sampler valid_loader = Some (SubsetRandomSampler valid_idx) ∧
    valid_idx ++ train_idx = range (len mnist_train) ∧
    dataset train_loader = mnist_train ∧ dataset valid_loader = mnist_train ∧
    train = mnist_train ∧ test = mnist_test ∧
    loader_batch_size train_loader = batch_size ∧
    loader_batch_size valid_loader = batch_size ∧
    loader_batch_size test_loader = batch_size.
Proof.
  unfold load_mnist_data. intros H.
  apply result_bind_Ok in H as (split & _ & H). injection H as <- <- <- <- <-.
  eexists _, _. cbn [sampler dataset loader_batch_size].
  repeat split. apply slice_to_from.
Qed.

(** ** Aggregation, completely *)

Lemma result_mapM_Raise {A B} (f : A → result B) l e :
  result_mapM f l = Raise e → ∃ a, a ∈ l ∧ f a = Raise e.
Proof.
  induction l as [|a l IH]; cbn [result_mapM]; [discriminate|].
  destruct (f a) as [b|e'] eqn:Ea; cbn.
  - destruct (result_mapM f l) as [bs|e'']; cbn; [discriminate|].
    intros [= <-]. destruct (IH eq_refl) as (a' & Hin & Ha').
    exists a'. split; [set_solver|done].
  - intros [= <-]. exists a. split; [set_solver|done].
Qed.

Lemma dict_get_Raise {V} (d : dict V) k e : dict_get d k = Raise e → e = KeyError.
Proof.
  induction d as [|[k0 v0] d IH]; cbn [dict_get]; [now intros [= <-]|].
  destruct (k0 =? k)%float; [discriminate|exact IH].
Qed.

Lemma per_scale_Raise f (d : dict (list Scalar)) noises e :
  per_scale f d noises = Raise e →
  e = KeyError ∧ ∃ k, k ∈ noises ∧ dict_get d k = Raise KeyError.
Proof.
  unfold per_scale. intros H.
  apply result_mapM_Raise in H as (k & Hin & Hk).
  destruct (dict_get d k) as [ds|e'] eqn:Ek; [discriminate|].
  injection Hk as ->. pose proof (dict_get_Raise _ _ _ Ek) as ->. eauto.
Qed.

Lemma per_scale_length f (d : dict (list Scalar)) noises l :
  per_scale f d noises = Ok l → length l = length noises.
Proof. intros H. apply per_scale_Ok, Forall2_length in H. done. Qed.

(** X11: the aggregation of one variant either returns four lists with one
    entry per scale, the band edges being mean minus and plus deviation
    entry by entry, or raises [KeyError] because a scale has no entry in
    the dictionary; it fails in no other way. *)
Theorem aggregate_cases (d : dict (list Scalar)) noises :
  match aggregate d noises with
  | Ok b =>
      length (b_means b) = length noises ∧ length (b_stds b) = length noises ∧
      length (b_min b) = length noises ∧ length (b_max b) = length noises ∧
      b_min b = zip_with scalar_sub (b_means b) (b_stds b) ∧
      b_max b = zip_with scalar_add (b_means b) (b_stds b)
  | Raise e =>
      e = KeyError ∧ ∃ k, k ∈ noises ∧ dict_get d k = Raise KeyError
  end.
Proof.
  unfold aggregate.
  destruct (per_scale np_mean d noises) as [means|e] eqn:Em; cbn;
    [|now apply per_scale_Raise in Em].
  destruct (per_scale np_std d noises) as [stds|e] eqn:Es; cbn;
    [|now apply per_scale_Raise in Es].
  apply per_scale_length in Em, Es.
  destruct (pointwise scalar_sub means stds) as [mn|e] eqn:Emn; cbn.
  2: { destruct (pointwise_total scalar_sub means stds) as [c Hc]; [lia|].
       congruence. }
  destruct (pointwise scalar_add means stds) as [mx|e] eqn:Emx; cbn.
  2: { destruct (pointwise_total scalar_add means stds) as [c Hc]; [lia|].
       congruence. }
  apply pointwise_Ok in Emn as [-> _], Emx as [-> _].
  rewrite !length_zip_with. repeat split; try done; lia.
Qed.

(** ** A histogram of an unknown quantity *)

Lemma collect_value_unrecognized test_tds expl plot_type values i w :
  plot_type ∉ ["h(x)"; "theta(x)"; "theta(x)h(x)"] →
  ∃ r, collect_value test_tds expl plot_type values i w = (r, w) ∧
       (r = Ok values ∨ ∃ e, r = Raise e) ∧
       ((∃ x, sample_image test_tds i x) → r = Ok values).
Proof.
  intros Hty. unfold collect_value.
  destruct (String.eqb plot_type "h(x)") eqn:E1;
    [apply String.eqb_eq in E1; exfalso; apply Hty; set_solver|].
  destruct (String.eqb plot_type "theta(x)") eqn:E2;
    [apply String.eqb_eq in E2; exfalso; apply Hty; set_solver|].
  destruct (String.eqb plot_type "theta(x)h(x)") eqn:E3;
    [apply String.eqb_eq in E3; exfalso; apply Hty; set_solver|].
  unfold mbind, M_bind, lift, sample_image.
  destruct (getitem (dataset test_tds) i) as [sample|e] eqn:Es.
  - destruct (view_1_1_28_28 sample.1) as [x|e] eqn:Ex.
    + eexists. split; [reflexivity|]. split; [now left|done].
    + eexists. split; [reflexivity|]. split; [right; eauto|].
      intros (x & s' & [= <-] & Hx). congruence.
  - eexists. split; [reflexivity|]. split; [right; eauto|].
    intros (x & s' & [=] & _).
Qed.

Lemma collect_loop_unrecognized test_tds expl plot_type l values w :
  plot_type ∉ ["h(x)"; "theta(x)"; "theta(x)h(x)"] →
  ∃ r, foldM (collect_value test_tds expl plot_type) l values w = (r, w) ∧
       (r = Ok values ∨ ∃ e, r = Raise e) ∧
       ((∀ i, i ∈ l → ∃ x, sample_image test_tds i x) → r = Ok values).
Proof.
  intros Hty. induction l as [|i l IH].
  - exists (Ok values). split; [done|]. split; [now left|done].
  - destruct (collect_value_unrecognized test_tds expl plot_type values i w Hty)
      as (r1 & H1 & Hcases & Hgood).
    cbn [foldM]. unfold mbind, M_bind. rewrite H1.
    destruct Hcases as [->|[e ->]].
    + destruct IH as (r & Hr & Hc & Hg). exists r. split; [done|].
      split; [done|]. intros Hall. apply Hg. intros j Hj. apply Hall. set_solver.
    + exists (Raise e). split; [done|]. split; [right; eauto|].
      intros Hall. exfalso.
      assert (Raise e = Ok values) as [=] by (apply Hgood, Hall; set_solver).
Qed.

(** X12: called with a [plot_type] other than the three it knows,
    [plot_distribution_h] never returns and never draws a histogram.  It
    still goes through the 10000 samples, collecting nothing; when every
    sample can be read it then prints "len values 0" and raises
    [UnboundLocalError] for [plot_color].  The generator is not touched. *)
Theorem plot_distribution_h_unrecognized test_tds expl plot_type w :
  plot_type ∉ ["h(x)"; "theta(x)"; "theta(x)h(x)"] →
  ∃ e w',
    plot_distribution_h test_tds expl plot_type w = (Raise e, w') ∧
    rng w' = rng w ∧
    count is_hist (trace w') = count is_hist (trace w) ∧
    ((∀ i, 0 ≤ i < 10000 → ∃ x, sample_image test_tds i x) →
     e = UnboundLocalError "plot_color" ∧
     trace w' = trace w ++ [Tqdm 10000; Print [PyStr "len values"; PyInt 0]]).
Proof.
  intros Hty. unfold plot_distribution_h.
  assert (Hrange : (∀ i, 0 ≤ i < 10000 → ∃ x, sample_image test_tds i x) →
                   ∀ i, i ∈ range 10000 → ∃ x, sample_image test_tds i x).
  { intros Hall i Hi. apply Hall. now apply elem_of_range. }
  revert Hrange. generalize (range 10000). intros l Hrange.
  unfold mbind at 1, M_bind at 1. cbn [emit].
  unfold mbind at 1, M_bind at 1.
  destruct (collect_loop_unrecognized test_tds expl plot_type l []
              {| rng := rng w; trace := trace w ++ [Tqdm 10000] |} Hty)
    as (r & -> & Hcases & Hgood).
  destruct Hcases as [->|[e ->]].
  - destruct (String.eqb plot_type "h(x)") eqn:E1;
      [apply String.eqb_eq in E1; exfalso; apply Hty; set_solver|].
    destruct (String.eqb plot_type "theta(x)") eqn:E2;
      [apply String.eqb_eq in E2; exfalso; apply Hty; set_solver|].
    destruct (String.eqb plot_type "theta(x)h(x)") eqn:E3;
      [apply String.eqb_eq in E3; exfalso; apply Hty; set_solver|].
    eexists _, _. split; [reflexivity|]. cbn [rng trace].
    split; [done|]. split.
    + rewrite !count_app. cbn. lia.
    + intros _. split; [done|]. now rewrite <- app_assoc.
  - eexists _, _. split; [reflexivity|]. cbn [rng trace].
    split; [done|]. split.
    + rewrite count_app. cbn. lia.
    + intros Hall. exfalso.
      assert (Raise e = Ok ([] : list Array)) as [=]
        by (apply Hgood, Hrange, Hall).
Qed.

(** ** Scales that repeat *)

Lemma dict_set_keys_eq {V} (d d2 : dict V) k v v2 :
  dict_keys d = dict_keys d2 →
  dict_keys (dict_set d k v) = dict_keys (dict_set d2 k v2).
Proof.
  revert d2. induction d as [|[k0 v0] d IH]; intros [|[k1 v1] d2];
    cbn; try discriminate; [done|].
  intros [= <- Hkeys]. destruct (k0 =? k)%float; cbn.
  - now f_equal.
  - f_equal. now apply IH.
Qed.

Lemma dict_set_keys_length {V} (d : dict V) k v :
  (length (dict_keys (dict_set d k v)) ≤ S (length (dict_keys d)))%nat.
Proof.
  unfold dict_keys. rewrite !length_map.
  induction d as [|[k0 v0] d IH]; simpl; [lia|].
  destruct (k0 =? k)%float; simpl; lia.
Qed.

Lemma dict_get_set_same {V} (d : dict V) k v :
  (k =? k)%float = true → dict_get (dict_set d k v) k = Ok v.
Proof.
  intros Hk. induction d as [|[k0 v0] d IH]; cbn.
  - now rewrite Hk.
  - destruct (k0 =? k)%float eqn:E; cbn; now rewrite E.
Qed.

Lemma dict_get_set_inv {V} (d : dict V) k' v' k v :
  dict_get (dict_set d k' v') k = Ok v → v = v' ∨ dict_get d k = Ok v.
Proof.
  induction d as [|[k0 v0] d IH]; cbn.
  - destruct (k' =? k)%float; [|discriminate]. intros [= <-]. now left.
  - destruct (k0 =? k')%float; cbn; destruct (k0 =? k)%float; eauto.
    intros [= <-]. now left.
Qed.

Lemma dict_get_set_other {V} (d : dict V) k' v' k v :
  dict_get d k = Ok v → ∃ v2, dict_get (dict_set d k' v') k = Ok v2.
Proof.
  induction d as [|[k0 v0] d IH]; cbn; [discriminate|].
  destruct (k0 =? k)%float eqn:E; destruct (k0 =? k')%float; cbn; rewrite E; eauto.
Qed.

(** Equality of floats ([==]) is that of their values, the two zeros
    being equal: two floats equal to a third are equal. *)
Lemma SFeqb_inv (a b : spec_float) :
  SFeqb a b = true →
  a = b ∨ ∃ s s', a = S754_zero s ∧ b = S754_zero s'.
Proof.
  unfold SFeqb.
  destruct a as [s|s| |s m e], b as [s'|s'| |s' m' e']; cbn; try discriminate.
  all: try (destruct s; discriminate).
  all: try (destruct s'; discriminate).
  - intros _. right. eauto.
  - destruct s, s'; try discriminate; now left.
  - change (PosDef.Pos.compare_cont Eq m m') with (Pos.compare m m').
    destruct s, s'; try discriminate;
      destruct (Z.compare_spec e e') as [->| |]; try discriminate;
      destruct (Pos.compare_spec m m') as [->| |]; try discriminate;
      now left.
Qed.
Lemma float_eqb_euclid (k0 k k' : float) :
  (k0 =? k)%float = true → (k0 =? k')%float = true → (k' =? k)%float = true.
Proof.
  rewrite !FloatAxioms.eqb_spec. intros Hk Hk'.
  destruct (SFeqb_inv _ _ Hk) as [E|(s & s' & E & E')];
    destruct (SFeqb_inv _ _ Hk') as [F|(t & t' & F & F')].
  - now rewrite <- F.
  - now rewrite F', <- E, F.
  - now rewrite <- F, E, E'.
  - now rewrite E', F'.
Qed.

(** Setting a key either replaces the value of an entry, or adds an entry
    at the end for a key that no entry has. *)
Lemma dict_set_keys_cases {V} (d : dict V) k v :
  (dict_keys (dict_set d k v) = dict_keys d ∧
   ∃ k0, k0 ∈ dict_keys d ∧ (k0 =? k)%float = true) ∨
  (dict_keys (dict_set d k v) = dict_keys d ++ [k] ∧
   Forall (λ k0, (k0 =? k)%float = false) (dict_keys d)).
Proof.
  unfold dict_keys.
  induction d as [|[k0 v0] d IH]; cbn [dict_set map fst app].
  - right. split; [done|constructor].
  - destruct (k0 =? k)%float eqn:E; cbn [map fst].
    + left. split; [done|]. exists k0. split; [apply elem_of_cons; now left|done].
    + destruct IH as [[E1 (k1 & Hin & Hk1)]|[E1 Hall]]; rewrite E1.
      * left. split; [done|]. exists k1. split; [apply elem_of_cons; now right|done].
      * right. split; [done|]. now constructor.
Qed.

Lemma different_keys_snoc ks k :
  different_keys ks = true →
  Forall (λ k0, (k0 =? k)%float = false) ks →
  different_keys (ks ++ [k]) = true.
Proof.
  induction ks as [|k0 ks IH]; cbn; [done|].
  intros H Hall. apply andb_true_iff in H as [Hk0 Hrest].
  apply Forall_cons in Hall as [Hk Hall].
  rewrite forallb_app, Hk0, IH by done. cbn. now rewrite Hk.
Qed.

(** Setting another key leaves the value of a key as it is. *)
Lemma dict_get_set_keeps {V} (d : dict V) k' v' k v :
  dict_get d k = Ok v → (k' =? k)%float = false →
  dict_get (dict_set d k' v') k = Ok v.
Proof.
  intros Hget Hk. induction d as [|[k0 v0] d IH]; cbn in *; [discriminate|].
  destruct (k0 =? k')%float eqn:E'; destruct (k0 =? k)%float eqn:E;
    cbn; rewrite ?E; try done.
  - pose proof (float_eqb_euclid _ _ _ E E'). congruence.
  - now apply IH.
Qed.

Lemma foldM_app_Ok {W S A} (body : S → A → M W S) l1 l2 s (u : W) s' u' :
  foldM body (l1 ++ l2) s u = (Ok s', u') →
  ∃ s1 u1, foldM body l1 s u = (Ok s1, u1) ∧ foldM body l2 s1 u1 = (Ok s', u').
Proof.
  revert s u. induction l1 as [|a l1 IH]; intros s u H.
  - now exists s, u.
  - cbn [app foldM] in H. apply M_bind_Ok in H as (s0 & u0 & Hbody & H).
    destruct (IH _ _ H) as (s1 & u1 & H1 & H2).
    exists s1, u1. split; [|done].
    cbn [foldM]. unfold mbind, M_bind. now rewrite Hbody.
Qed.

(** The scales swept after [k] that differ from [k] leave its entries. *)
Lemma noise_sweep_keeps (test_tds : DataLoader Tensor) expl k post :
  Forall (λ k', (k' =? k)%float = false) post →
  ∀ (s : dict (list Scalar) * dict (list Scalar)) w s' w' ds ds2,
    foldM (λ '(dist_dict, dist_dict_2) noise,
             distances ← eval_stability_2 test_tds expl noise false;
             distances_2 ← eval_stability_2 test_tds expl noise true;
             mret (dict_set dist_dict noise distances,
                   dict_set dist_dict_2 noise distances_2)) post s w
    = (Ok s', w') →
    dict_get s.1 k = Ok ds → dict_get s.2 k = Ok ds2 →
    dict_get s'.1 k = Ok ds ∧ dict_get s'.2 k = Ok ds2.
Proof.
  induction 1 as [|k' post Hk' _ IH]; intros [e e2] w s' w' ds ds2 H Hg Hg2.
  - apply M_ret_Ok in H as [-> ->]. now split.
  - cbn [foldM] in H. apply M_bind_Ok in H as ([e' e2'] & w1 & Hbody & H).
    apply M_bind_Ok in Hbody as (a & w2 & _ & Hbody).
    apply M_bind_Ok in Hbody as (a2 & w3 & _ & Hbody).
    apply M_ret_Ok in Hbody as [[= -> ->] ->].
    apply (IH _ _ _ _ _ _ H); cbn [fst snd] in *;
      now apply dict_get_set_keeps.
Qed.

(** What a sweep that returns leaves in the dictionaries, for any scales,
    repeated ones included. *)
Lemma noise_sweep_entries (test_tds : DataLoader Tensor) expl noises w d d2 w' :
  noise_sweep test_tds expl noises w = (Ok (d, d2), w') →
  (dict_keys d = dict_keys d2 ∧
   different_keys (dict_keys d) = true ∧
   (∀ k, k ∈ dict_keys d → k ∈ noises) ∧
   (length (dict_keys d) ≤ length noises)%nat) ∧
  ∀ k, k ∈ noises → (k =? k)%float = true →
    ∃ ds ds2, dict_get d k = Ok ds ∧ dict_get d2 k = Ok ds2 ∧
              len ds = 10000 ∧ len ds2 = 10000.
Proof.
  unfold noise_sweep. intros H.
  assert (Hinv : dict_keys d = dict_keys d2 ∧
    different_keys (dict_keys d) = true ∧
    (∀ k, k ∈ dict_keys d → k ∈ noises) ∧
    (length (dict_keys d) ≤ length noises)%nat ∧
    (∀ k, k ∈ noises → (k =? k)%float = true →
       ∃ ds ds2, dict_get d k = Ok ds ∧ dict_get d2 k = Ok ds2) ∧
    (∀ k v, dict_get d k = Ok v → len v = 10000) ∧
    (∀ k v, dict_get d2 k = Ok v → len v = 10000)).
  { revert H.
    apply (foldM_Ok_inv _
      (λ done (s : dict (list Scalar) * dict (list Scalar)) _,
         dict_keys s.1 = dict_keys s.2 ∧
         different_keys (dict_keys s.1) = true ∧
         (∀ k, k ∈ dict_keys s.1 → k ∈ done) ∧
         (length (dict_keys s.1) ≤ length done)%nat ∧
         (∀ k, k ∈ done → (k =? k)%float = true →
            ∃ ds ds2, dict_get s.1 k = Ok ds ∧ dict_get s.2 k = Ok ds2) ∧
         (∀ k v, dict_get s.1 k = Ok v → len v = 10000) ∧
         (∀ k v, dict_get s.2 k = Ok v → len v = 10000))).
    - intros done [e e2] w1 k [e' e2'] w2
        (Hkeys & Hdiff & Hsub & Hlen & Hget & Hv & Hv2) Hbody.
      cbn [fst snd] in *.
      apply M_bind_Ok in Hbody as (ds & w3 & Hraw & Hbody).
      apply M_bind_Ok in Hbody as (ds2 & w4 & Hours & Hbody).
      apply M_ret_Ok in Hbody as [[= -> ->] ->].
      apply eval_stability_2_Ok_trace in Hraw as [_ Hl], Hours as [_ Hl2].
      split; [now apply dict_set_keys_eq|].
      split; [|split; [|split; [|split; [|split]]]].
      + destruct (dict_set_keys_cases e k ds) as [[-> _]|[-> Hall]];
          [done|now apply different_keys_snoc].
      + intros k0 Hin. apply elem_of_app.
        destruct (dict_set_keys_cases e k ds) as [[E _]|[E _]];
          rewrite E in Hin.
        * left. now apply Hsub.
        * apply elem_of_app in Hin as [Hin|Hin]; [left; now apply Hsub|now right].
      + pose proof (dict_set_keys_length e k ds). rewrite length_app. cbn. lia.
      + intros k0 Hin Hk0. apply elem_of_app in Hin as [Hin|Hin].
        * destruct (Hget k0 Hin Hk0) as (a & a2 & Ha & Ha2).
          destruct (dict_get_set_other e k ds _ _ Ha) as [b Hb].
          destruct (dict_get_set_other e2 k ds2 _ _ Ha2) as [b2 Hb2].
          eauto.
        * apply list_elem_of_singleton in Hin as ->.
          exists ds, ds2. split; now apply dict_get_set_same.
      + intros k0 v Hk0. apply dict_get_set_inv in Hk0 as [->|Hk0]; eauto.
      + intros k0 v Hk0. apply dict_get_set_inv in Hk0 as [->|Hk0]; eauto.
    - cbn. repeat split; try done; try lia.
      all: intros k Hin; by apply elem_of_nil in Hin. }
  destruct Hinv as (Hkeys & Hdiff & Hsub & Hlen & Hget & Hv & Hv2).
  split; [done|].
  intros k Hin Hk. destruct (Hget k Hin Hk) as (ds & ds2 & Hds & Hds2).
  exists ds, ds2. repeat split; eauto.
Qed.

(** X13: for any scales, repeated ones included, a sweep that returns
    leaves two dictionaries with the same keys; no two keys are equal
    scales, every key is a swept scale, and every swept scale that is a
    number (not NaN) has an entry of 10000 distances in both.  A scale that
    comes again adds no entry and replaces the distances stored for it:
    what is stored for a scale is what the two runs returned where the
    scale was swept last. *)
Theorem noise_sweep_any_scales test_tds expl noises w d d2 w' :
  noise_sweep test_tds expl noises w = (Ok (d, d2), w') →
  (dict_keys d = dict_keys d2 ∧
   different_keys (dict_keys d) = true ∧
   (∀ k, k ∈ dict_keys d → k ∈ noises) ∧
   (length (dict_keys d) ≤ length noises)%nat) ∧
  (∀ k, k ∈ noises → (k =? k)%float = true →
     ∃ ds ds2, dict_get d k = Ok ds ∧ dict_get d2 k = Ok ds2 ∧
               len ds = 10000 ∧ len ds2 = 10000) ∧
  (∀ pre k post,
     noises = pre ++ k :: post → (k =? k)%float = true →
     Forall (λ k', (k' =? k)%float = false) post →
     ∃ e e2 w1 ds w2 ds2 w3,
       noise_sweep test_tds expl pre w = (Ok (e, e2), w1) ∧
       eval_stability_2 test_tds expl k false w1 = (Ok ds, w2) ∧
       eval_stability_2 test_tds expl k true w2 = (Ok ds2, w3) ∧
       dict_get d k = Ok ds ∧ dict_get d2 k = Ok ds2).
Proof.
  intros H. destruct (noise_sweep_entries _ _ _ _ _ _ _ H) as [Hkeys Hget].
  split; [exact Hkeys|]. split; [exact Hget|].
  intros pre k post -> Hk Hpost. unfold noise_sweep in *.
  apply foldM_app_Ok in H as ([e e2] & w1 & Hpre & H).
  cbn [foldM] in H. apply M_bind_Ok in H as ([e' e2'] & w3 & Hbody & H).
  apply M_bind_Ok in Hbody as (ds & w2 & Hraw & Hbody).
  apply M_bind_Ok in Hbody as (ds2 & w4 & Hours & Hbody).
  apply M_ret_Ok in Hbody as [[= -> ->] ->].
  exists e, e2, w1, ds, w2, ds2, w4.
  split; [exact Hpre|]. split; [exact Hraw|]. split; [exact Hours|].
  apply (noise_sweep_keeps _ _ _ _ Hpost _ _ _ _ _ _ H); cbn [fst snd];
    now apply dict_get_set_same.
Qed.

(** ** A missing checkpoint *)

(** X14: with [load_model] set and no [model_best.pth.tar] under the model
    path, [main] stops at its first [torch.load] with [FileNotFoundError].
    Before it the run has shown the parameters [parse_args] prints and
    nothing else: nothing has been trained or plotted, and
    [theta_reg_type] has not been looked at, so an unknown value of it goes
    unreported in this case. *)
Theorem main_setup_missing_checkpoint w split :
  let args := set_theta_dim (set_nclasses parser_parse_args 10) 10 in
  let path :=
    path_join (generate_dir_names "mnist" args).1.1 "model_best.pth.tar" in
  load_model parser_parse_args = true →
  int_floor (0.1 * float_of_Z (len mnist_train))%float = Ok split →
  files !! path = None →
  ∃ w', main_setup w = (Raise (FileNotFoundError path), w') ∧
        trace w' = trace w ++ parse_args_output ++ [TorchLoad path].
Proof.
  intros args path Hload Hsplit Hfile. subst path.
  unfold main_setup, load_mnist_data.
  unfold mbind at 1. unfold M_bind at 1. rewrite parse_args_run.
  change (nclasses (set_nclasses parser_parse_args 10)) with 10. fold args in Hfile |- *.
  rewrite Hsplit.
  destruct (generate_dir_names "mnist" args) as [[model_path log_path] results_path].
  cbn [fst] in Hfile.
  cbn [mbind result_mbind result_bind M_bind lift].
  assert (Hstop : ∀ args' (model : Model) w0,
            load_model args' = true →
            load_existing args' model_path model w0
            = (Raise (FileNotFoundError (path_join model_path "model_best.pth.tar")),
               {| rng := rng w0;
                  trace := trace w0 ++
                    [TorchLoad (path_join model_path "model_best.pth.tar")] |})).
  { intros args' model w0 Hl. unfold load_existing, torch_load. rewrite Hl.
    unfold mbind, M_bind, emit, lift. cbn [rng trace]. now rewrite Hfile. }
  destruct (if String.eqb (h_type args) "input" then _ else _)
    as [conceptizer args'] eqn:Eh.
  assert (Hl : load_model args' = true).
  { destruct (String.eqb (h_type args) "input");
      [|destruct (String.eqb (h_type args) "cnn")];
      injection Eh as <- <-; exact Hload. }
  unfold draw, mbind, M_bind, lift. cbv beta iota. cbn [fst rng trace].
  destruct (GSENN conceptizer _ _ (rng w)) as [model g].
  rewrite (Hstop args' model _ Hl).
  eexists. split; [reflexivity|]. cbn [trace]. now rewrite <- app_assoc.
Qed.

End MoreProperties.

(** ** The further properties on the small instance *)

Lemma main_returns_recognized_witness :
  ∃ r w',
    main toy_world = (Ok r, w') ∧
    theta_reg_type parser_parse_args
      ∈ [None; Some "unreg"; Some "none";
         Some "grad1"; Some "grad2"; Some "grad3"].
Proof.
  destruct (toy_main_total toy_world) as (r & w' & H).
  exists r, w'. split; [exact H|].
  exact (main_returns_recognized _ _ _ H).
Defined.

Lemma main_setup_args_witness :
  ∃ s w',
    main_setup toy_world = (Ok s, w') ∧
    (nclasses (s_args s) = 10 ∧ theta_dim (s_args s) = 10 ∧
     nconcepts (s_args s)
     = (if String.eqb (h_type parser_parse_args) "input"
        then 28 * 28 + (if nobias parser_parse_args then 0 else 1)
        else nconcepts parser_parse_args) ∧
     s_args s
     = set_nconcepts (set_theta_dim (set_nclasses parser_parse_args 10) 10)
                     (nconcepts (s_args s))).
Proof.
  eexists _, _. split; [apply toy_main_setup_eq|].
  exact (main_setup_args _ _ _ (toy_main_setup_eq toy_test_set toy_world)).
Defined.

Lemma eval_stability_2_draws_witness :
  ∃ distances w',
    eval_stability_2 toy_loader toy_expl 0.1 true toy_world = (Ok distances, w') ∧
    ∃ xs,
      Forall2 (sample_image toy_loader) (range 10000) xs ∧
      rng w' = (draw_noises 0.1 xs (rng toy_world)).2 ∧
      Forall2 (λ xn d, spec_distance toy_expl true xn.1 xn.2 = Ok d)
              (zip xs (draw_noises 0.1 xs (rng toy_world)).1) distances.
Proof.
  destruct (toy_eval_total toy_loader toy_expl 0.1 true toy_world eq_refl)
    as (distances & w' & H).
  exists distances, w'. split; [exact H|].
  exact (eval_stability_2_draws _ _ _ _ _ _ _ H).
Defined.

Lemma toy_longer_take :
  take (Z.to_nat 10000) (dataset toy_loader)
  = take (Z.to_nat 10000) (dataset toy_loader_longer).
Proof.
  cbn [dataset toy_loader toy_loader_longer]. symmetry. apply take_app_le.
  unfold toy_test_set. now rewrite length_replicate.
Qed.

Lemma loops_read_first_10000_witness :
  take (Z.to_nat 10000) (dataset toy_loader)
  = take (Z.to_nat 10000) (dataset toy_loader_longer) ∧
  eval_stability_2 toy_loader toy_expl 0.1 true toy_world
  = eval_stability_2 toy_loader_longer toy_expl 0.1 true toy_world ∧
  plot_distribution_h toy_loader toy_expl "h(x)" toy_world
  = plot_distribution_h toy_loader_longer toy_expl "h(x)" toy_world.
Proof.
  split; [exact toy_longer_take|].
  exact (loops_read_first_10000 toy_loader toy_loader_longer toy_expl
           0.1%float true "h(x)" toy_world toy_longer_take).
Defined.


Lemma load_mnist_data_partition_witness :
  ∃ train_loader valid_loader test_loader train test,
    load_mnist_data 0.1 true 2008 64 1
    = Ok (train_loader, valid_loader, test_loader, train, test) ∧
    ∃ train_idx valid_idx,
      sampler train_loader = Some (SubsetRandomSampler train_idx) ∧
      sampler valid_loader = Some (SubsetRandomSampler valid_idx) ∧
      valid_idx ++ train_idx = range (len mnist_train) ∧
      dataset train_loader = mnist_train ∧ dataset valid_loader = mnist_train ∧
      train = mnist_train ∧ test = mnist_test ∧
      loader_batch_size train_loader = 64 ∧
      loader_batch_size valid_loader = 64 ∧
      loader_batch_size test_loader = 64.
Proof.
  assert (Hsplit : int_floor (0.1 * float_of_Z (len mnist_train))%float = Ok 1)
    by now vm_compute.
  destruct (load_mnist_data 0.1 true 2008 64 1)
    as [[[[[train_loader valid_loader] test_loader] train] test]|e] eqn:E.
  - exists train_loader, valid_loader, test_loader, train, test.
    split; [reflexivity|].
    exact (load_mnist_data_partition _ _ _ _ _ _ _ _ _ _ E).
  - exfalso. unfold load_mnist_data in E. rewrite Hsplit in E. discriminate E.
Defined.

Lemma plot_distribution_h_unrecognized_witness :
  ("x" ∉ ["h(x)"; "theta(x)"; "theta(x)h(x)"]) ∧
  ∃ e w',
    plot_distribution_h toy_loader toy_expl "x" toy_world = (Raise e, w') ∧
    rng w' = rng toy_world ∧
    count is_hist (trace w') = count is_hist (trace toy_world) ∧
    ((∀ i, 0 ≤ i < 10000 → ∃ x, sample_image toy_loader i x) →
     e = UnboundLocalError "plot_color" ∧
     trace w' = trace toy_world
                ++ [Tqdm 10000; Print [PyStr "len values"; PyInt 0]]).
Proof.
  assert (H : "x" ∉ ["h(x)"; "theta(x)"; "theta(x)h(x)"]).
  { intros Hin. repeat (apply elem_of_cons in Hin as [[=]|Hin]).
    by apply elem_of_nil in Hin. }
  split; [exact H|].
  exact (plot_distribution_h_unrecognized toy_loader toy_expl "x" toy_world H).
Defined.

Lemma elem_of_twice {A} (a x : A) : x ∈ [a; a] → x = a.
Proof.
  intros Hx. apply elem_of_cons in Hx as [->|Hx]; [reflexivity|].
  apply elem_of_cons in Hx as [->|Hx]; [reflexivity|].
  now apply elem_of_nil in Hx.
Qed.

(** The scale 0.1 swept twice: one key, and what is stored under it is
    what the second pair of runs returned. *)
Lemma noise_sweep_any_scales_witness :
  ∃ d d2 w',
    noise_sweep toy_loader toy_expl [0.1; 0.1]%float toy_world = (Ok (d, d2), w') ∧
    dict_keys d = [0.1%float] ∧ dict_keys d2 = [0.1%float] ∧
    ∃ e e2 w1 ds w2 ds2 w3,
      noise_sweep toy_loader toy_expl [0.1%float] toy_world = (Ok (e, e2), w1) ∧
      eval_stability_2 toy_loader toy_expl 0.1 false w1 = (Ok ds, w2) ∧
      eval_stability_2 toy_loader toy_expl 0.1 true w2 = (Ok ds2, w3) ∧
      dict_get d 0.1 = Ok ds ∧ dict_get d2 0.1 = Ok ds2.
Proof.
  destruct (toy_noise_sweep_total [0.1; 0.1]%float toy_world)
    as ([d d2] & w' & H).
  exists d, d2, w'. split; [exact H|].
  destruct (noise_sweep_any_scales _ _ _ _ _ _ _ H)
    as ((Hkeys & Hdiff & Hsub & _) & Hget & Hlast).
  pose proof (elem_of_twice 0.1%float) as Hin.
  assert (Hd : dict_keys d = [0.1%float]).
  { destruct (Hget 0.1%float) as (ds & _ & Hds & _);
      [apply elem_of_cons; now left|reflexivity|].
    clear H Hget Hlast Hkeys.
    destruct d as [|[k1 v1] [|[k2 v2] d]];
      cbn [dict_keys map fst] in Hsub, Hdiff |- *.
    - discriminate Hds.
    - f_equal. apply Hin, Hsub, elem_of_cons. now left.
    - exfalso.
      rewrite (Hin k1) in Hdiff by (apply Hsub, elem_of_cons; now left).
      rewrite (Hin k2) in Hdiff
        by (apply Hsub, elem_of_cons; right; apply elem_of_cons; now left).
      vm_compute in Hdiff. discriminate Hdiff. }
  split; [exact Hd|]. split; [now rewrite <- Hkeys|].
  exact (Hlast [0.1%float] 0.1%float [] eq_refl eq_refl (Forall_nil_2 _)).
Defined.

Lemma main_setup_missing_checkpoint_witness :
  ∃ w',
    @main_setup _ _ _ toy_host_no_checkpoint toy_world
    = (Raise (FileNotFoundError "models/mnist/model_best.pth.tar"), w') ∧
    trace w' = trace toy_world
               ++ parse_args_output (host := toy_host_no_checkpoint)
               ++ [TorchLoad "models/mnist/model_best.pth.tar"].
Proof.
  refine (main_setup_missing_checkpoint (host := toy_host_no_checkpoint)
            toy_world 1 eq_refl _ _).
  - now vm_compute.
  - apply lookup_empty.
Defined.
